(** * final_erc1155_analysis.py: the ERC1155 report and its JSON rendering

    The script binds one dictionary literal, [erc1155_data], and runs
    [print(json.dumps(erc1155_data, indent=2))].  This development embeds

    - the Python values the literal is built from (ordered dictionaries,
      lists, strings, integers, binary64 floats),
    - [json.dumps] as the pure-Python encoder of [json/encoder.py] writes
      it ([_iterencode], [_iterencode_dict], [_iterencode_list], [floatstr],
      [py_encode_basestring_ascii]),
    - [json.loads] as [json/decoder.py] and [json/scanner.py] write it,
    - [print] and the script itself over an explicit standard-output state,

    and then proves that the encoder is total on values without [bytes],
    that the decoder reads back what the encoder writes, and the properties
    of the report and of its rendering. *)

From Stdlib Require Import ZArith List String Ascii Bool Lia.
From Stdlib Require Import Decimal DecimalFacts DecimalPos DecimalZ DecimalString.
From Stdlib Require Import Floats.SpecFloat.
Import ListNotations.

Local Open Scope string_scope.
Local Open Scope Z_scope.

Set Warnings "-register-all".

(** ** Exceptions and the result of a fallible call *)

Inductive exn : Type :=
| TypeError (msg : string)
| ValueError (msg : string)
| KeyError (key : string)
| IndexError
| RecursionError
| JSONDecodeError (msg : string).

Inductive result (A : Type) : Type :=
| Ok (a : A)
| Raise (e : exn).
Arguments Ok {A} a.
Arguments Raise {A} e.

Definition bind {A B : Type} (r : result A) (k : A -> result B) : result B :=
  match r with
  | Ok a => k a
  | Raise e => Raise e
  end.

Notation "x <- c ;; k" := (bind c (fun x => k))
  (at level 61, c at next level, right associativity).
Notation "' pat <- c ;; k" := (bind c (fun x => match x with pat => k end))
  (at level 61, pat pattern, c at next level, right associativity).

(** ** Characters and strings

    A Python [str] is modelled by [string]: a sequence of code points
    below 256.  Every string of the report is plain ASCII. *)

Definition dquote : ascii := "034"%char.
Definition backslash : ascii := "\"%char.
Definition LF : ascii := "010"%char.
Definition CR : ascii := "013"%char.
Definition TAB : ascii := "009"%char.
Definition BS : ascii := "008"%char.
Definition FF : ascii := "012"%char.

Definition chr (c : ascii) : string := String c EmptyString.
Definition nl : string := chr LF.

Definition ord (c : ascii) : Z := Z.of_N (N_of_ascii c).

(** [s * n] on strings. *)
Fixpoint str_mul (s : string) (n : nat) : string :=
  match n with
  | O => ""
  | S n' => s ++ str_mul s n'
  end.

(** [s.startswith(p)], and the rest of [s] after [p]. *)
Fixpoint strip_prefix (p s : string) : option string :=
  match p, s with
  | EmptyString, _ => Some s
  | String a p', String b s' => if Ascii.eqb a b then strip_prefix p' s' else None
  | String _ _, EmptyString => None
  end.

Definition startswith (s p : string) : bool :=
  match strip_prefix p s with Some _ => true | None => false end.

(** [p in s] on strings. *)
Fixpoint str_contains (p s : string) : bool :=
  startswith s p ||
  match s with
  | EmptyString => false
  | String _ s' => str_contains p s'
  end.

(** [s.split(sep)] for a one-character separator. *)
Fixpoint split_on (sep : ascii) (s : string) : list string :=
  match s with
  | EmptyString => [""]
  | String c s' =>
      if Ascii.eqb c sep then "" :: split_on sep s'
      else match split_on sep s' with
           | [] => [chr c]
           | l :: ls => String c l :: ls
           end
  end.

(** [s[:n]]. *)
Fixpoint str_take (n : nat) (s : string) : string :=
  match n, s with
  | S n', String c s' => String c (str_take n' s')
  | _, _ => ""
  end.

(** ** Floats: IEEE 754 binary64 *)

Definition prec : Z := 53.
Definition emax : Z := 1024.

Definition float : Type := spec_float.

(** The float nearest to [d * 10^e], ties to even: what [float(s)] and a
    float literal of the source text denote.  The quotient by a power of
    ten is rounded once, from the exact remainder. *)
Definition float_of_decimal (neg : bool) (d : Z) (e : Z) : float :=
  match d with
  | Z0 => S754_zero neg
  | Zneg _ => S754_nan
  | Zpos p =>
      if 0 <=? e then
        binary_normalize prec emax (if neg then - (d * 10 ^ e) else d * 10 ^ e) 0 false
      else
        let '(mz, ez, lz) := SFdiv_core_binary prec emax d 0 (10 ^ (- e)) 0 in
        binary_round_aux prec emax neg mz ez lz
  end.

(** The number of decimal digits of [n > 0]. *)
Fixpoint ndigits_aux (fuel : nat) (n : Z) : Z :=
  match fuel with
  | O => 0
  | S f => if n <? 10 then 1 else 1 + ndigits_aux f (n / 10)
  end.

Definition ndigits (n : Z) : Z := ndigits_aux (Z.to_nat (Z.log2 n) + 1) n.

(** The least [j >= 0] with [num * 10^j >= den]. *)
Fixpoint scale_up (fuel : nat) (num den : Z) : Z :=
  match fuel with
  | O => 0
  | S f => if den <=? num then 0 else 1 + scale_up f (num * 10) den
  end.

(** The decimal point of a positive rational [num/den]: the [k] with
    [10^(k-1) <= num/den < 10^k]. *)
Definition decimal_point (num den : Z) : Z :=
  if den <=? num then ndigits (num / den)
  else - scale_up (Z.to_nat (Z.log2 den) + 2) (num * 10) den.

(** [num/den] rounded to the nearest integer, ties to even. *)
Definition round_half_even (num den : Z) : Z :=
  let q := num / den in
  let r := num mod den in
  match 2 * r ?= den with
  | Lt => q
  | Gt => q + 1
  | Eq => if Z.even q then q else q + 1
  end.

(** A positive finite float [m * 2^e] rounded to [n] significant decimal
    digits: the digits as an integer of exactly [n] digits and the decimal
    point [k], for the value [0.d1...dn * 10^k]. *)
Definition to_digits (m : positive) (e : Z) (n : Z) : Z * Z :=
  let num := if 0 <=? e then Zpos m * 2 ^ e else Zpos m in
  let den := if 0 <=? e then 1 else 2 ^ (- e) in
  let k := decimal_point num den in
  let s := n - k in
  let d := if 0 <=? s then round_half_even (num * 10 ^ s) den
           else round_half_even num (den * 10 ^ (- s)) in
  if d =? 10 ^ n then (10 ^ (n - 1), k + 1) else (d, k).

Definition float_eqb (x y : float) : bool := SFeqb x y.

(** The shortest digit string that reads back as the same float: the
    digits [float.__repr__] prints (repr style [short]). *)
Fixpoint shortest_digits (fuel : nat) (m : positive) (e : Z) (n : Z) : Z * Z * Z :=
  let '(d, k) := to_digits m e n in
  match fuel with
  | O => (d, k, n)
  | S f =>
      if float_eqb (float_of_decimal false d (k - n)) (S754_finite false m e)
      then (d, k, n)
      else shortest_digits f m e (n + 1)
  end.

Definition string_of_Z (n : Z) : string := NilZero.string_of_int (Z.to_int n).

Definition zfill2 (s : string) : string :=
  match s with
  | String _ EmptyString => "0" ++ s
  | _ => s
  end.

(** [float.__repr__] of a finite nonzero magnitude: scientific notation when
    the decimal point falls outside [-4 < k <= 16], positional otherwise,
    always with a fractional part. *)
Definition repr_finite (m : positive) (e : Z) : string :=
  let '(d, k, n) := shortest_digits 16 m e 1 in
  let ds := string_of_Z d in
  if (k <=? -4) || (16 <? k) then
    let mant := match ds with
                | String c EmptyString => chr c
                | String c rest => String c ("." ++ rest)
                | EmptyString => ""
                end in
    let x := k - 1 in
    mant ++ "e" ++ (if x <? 0 then "-" else "+") ++ zfill2 (string_of_Z (Z.abs x))
  else if k <=? 0 then
    "0." ++ str_mul "0" (Z.to_nat (- k)) ++ ds
  else if n <=? k then
    ds ++ str_mul "0" (Z.to_nat (k - n)) ++ ".0"
  else
    str_take (Z.to_nat k) ds ++ "." ++ substring (Z.to_nat k) (Z.to_nat (n - k)) ds.

Definition float_repr (x : float) : string :=
  match x with
  | S754_zero s => if s then "-0.0" else "0.0"
  | S754_infinity s => if s then "-inf" else "inf"
  | S754_nan => "nan"
  | S754_finite s m e => (if s then "-" else "") ++ repr_finite m e
  end.

(** ** Python values

    The values a JSON document is made of, and [bytes] as the one kind of
    object here that [json.dumps] refuses.  A [dict] keeps its items in
    insertion order; its keys are strings. *)

Inductive pyval : Type :=
| PyNone
| PyBool (b : bool)
| PyInt (n : Z)
| PyFloat (x : float)
| PyStr (s : string)
| PyBytes (s : string)
| PyList (items : list pyval)
| PyDict (items : list (string * pyval)).

(** [d[k] = v] on the items of a dict: an existing key keeps its place. *)
Fixpoint dict_set (items : list (string * pyval)) (k : string) (v : pyval)
  : list (string * pyval) :=
  match items with
  | [] => [(k, v)]
  | (k', v') :: rest =>
      if String.eqb k' k then (k', v) :: rest else (k', v') :: dict_set rest k v
  end.

(** A dict display [{k1: v1, ..., kn: vn}], and [dict(pairs)]: the items
    are stored from left to right. *)
Definition dict_of (pairs : list (string * pyval)) : pyval :=
  PyDict (fold_left (fun d kv => dict_set d (fst kv) (snd kv)) pairs []).

Fixpoint dict_lookup (items : list (string * pyval)) (k : string) : option pyval :=
  match items with
  | [] => None
  | (k', v) :: rest => if String.eqb k' k then Some v else dict_lookup rest k
  end.

(** [obj[k]] for a string subscript. *)
Definition getitem (obj : pyval) (k : string) : result pyval :=
  match obj with
  | PyDict items =>
      match dict_lookup items k with
      | Some v => Ok v
      | None => Raise (KeyError k)
      end
  | _ => Raise (TypeError "object is not subscriptable by str")
  end.

(** [obj[i]] for a list and a non-negative index. *)
Definition getindex (obj : pyval) (i : nat) : result pyval :=
  match obj with
  | PyList items =>
      match nth_error items i with
      | Some v => Ok v
      | None => Raise IndexError
      end
  | _ => Raise (TypeError "object is not a list")
  end.

Definition keys (obj : pyval) : list string :=
  match obj with
  | PyDict items => map fst items
  | _ => []
  end.

Definition values (obj : pyval) : list pyval :=
  match obj with
  | PyDict items => map snd items
  | _ => []
  end.

Definition elements (obj : pyval) : list pyval :=
  match obj with
  | PyList items => items
  | _ => []
  end.

Definition as_int (v : pyval) : result Z :=
  match v with
  | PyInt n => Ok n
  | _ => Raise (TypeError "not an int")
  end.

Definition as_str (v : pyval) : result string :=
  match v with
  | PyStr s => Ok s
  | _ => Raise (TypeError "not a str")
  end.

(** ** [json.dumps]: the encoder *)

Module Encoder.

(** [format(n, '04x')] for [0 <= n < 0x10000]. *)
Definition hex_digit (n : Z) : ascii :=
  if n <? 10 then ascii_of_N (Z.to_N (48 + n)) else ascii_of_N (Z.to_N (87 + n)).

Definition hex4 (n : Z) : string :=
  String (hex_digit (n / 4096 mod 16))
    (String (hex_digit (n / 256 mod 16))
       (String (hex_digit (n / 16 mod 16))
          (String (hex_digit (n mod 16)) ""))).

(** [ESCAPE_DCT] and the [replace] of [py_encode_basestring_ascii]: the
    text that stands for one character between the quotes. *)
Definition escape_char (c : ascii) : string :=
  if Ascii.eqb c backslash then "\\"
  else if Ascii.eqb c dquote then String backslash (chr dquote)
  else if Ascii.eqb c BS then "\b"
  else if Ascii.eqb c FF then "\f"
  else if Ascii.eqb c LF then "\n"
  else if Ascii.eqb c CR then "\r"
  else if Ascii.eqb c TAB then "\t"
  else if (32 <=? ord c) && (ord c <=? 126) then chr c
  else "\u" ++ hex4 (ord c).

Fixpoint escape (s : string) : string :=
  match s with
  | EmptyString => ""
  | String c s' => escape_char c ++ escape s'
  end.

(** [encode_basestring_ascii], the [_encoder] of the default
    [ensure_ascii=True]. *)
Definition encode_basestring_ascii (s : string) : string :=
  chr dquote ++ escape s ++ chr dquote.

(** [floatstr]. *)
Definition floatstr (allow_nan : bool) (o : float) : result string :=
  match o with
  | S754_nan | S754_infinity _ =>
      if allow_nan then
        Ok match o with
           | S754_nan => "NaN"
           | S754_infinity false => "Infinity"
           | _ => "-Infinity"
           end
      else Raise (ValueError "Out of range float values are not JSON compliant")
  | _ => Ok (float_repr o)
  end.

(** [int.__repr__]. *)
Definition intstr (n : Z) : string := string_of_Z n.

Section Iterencode.

(** The settings of a [JSONEncoder]: [_indent] is the text of one
    indentation step when [indent] was given. *)
Variable _indent : option string.
Variable _item_separator : string.
Variable _key_separator : string.
Variable allow_nan : bool.

(** ['\n' + _indent * _current_indent_level], when indenting. *)
Definition newline_indent (level : nat) : string :=
  match _indent with
  | Some ind => nl ++ str_mul ind level
  | None => ""
  end.

(** The loops of [_iterencode_list] and [_iterencode_dict] over the items,
    for the encoder [encode_value] of an item at the next level.  The
    chunks the generators yield are joined as they come: before every
    item but the first goes the separator. *)
Section Loops.

Variable encode_value : pyval -> result string.
Variable separator : string.

Fixpoint list_chunks (lst : list pyval) (first : bool) : result string :=
  match lst with
  | [] => Ok ""
  | value :: rest =>
      chunk <- encode_value value ;;
      more <- list_chunks rest false ;;
      Ok ((if first then "" else separator) ++ chunk ++ more)
  end.

Fixpoint dict_chunks (dct : list (string * pyval)) (first : bool) : result string :=
  match dct with
  | [] => Ok ""
  | (key, value) :: rest =>
      chunk <- encode_value value ;;
      more <- dict_chunks rest false ;;
      Ok ((if first then "" else separator)
            ++ encode_basestring_ascii key ++ _key_separator ++ chunk ++ more)
  end.

End Loops.

(** [_iterencode], [_iterencode_list] and [_iterencode_dict]. *)
Fixpoint iterencode (o : pyval) (level : nat) : result string :=
  match o with
  | PyStr s => Ok (encode_basestring_ascii s)
  | PyNone => Ok "null"
  | PyBool true => Ok "true"
  | PyBool false => Ok "false"
  | PyInt n => Ok (intstr n)
  | PyFloat x => floatstr allow_nan x
  | PyList [] => Ok "[]"
  | PyList lst =>
      body <- list_chunks (fun value => iterencode value (S level))
                (_item_separator ++ newline_indent (S level)) lst true ;;
      Ok ("[" ++ newline_indent (S level) ++ body ++ newline_indent level ++ "]")
  | PyDict [] => Ok "{}"
  | PyDict dct =>
      body <- dict_chunks (fun value => iterencode value (S level))
                (_item_separator ++ newline_indent (S level)) dct true ;;
      Ok ("{" ++ newline_indent (S level) ++ body ++ newline_indent level ++ "}")
  | PyBytes _ => Raise (TypeError "Object of type bytes is not JSON serializable")
  end.

End Iterencode.

End Encoder.

(** [json.dumps(obj, indent=indent)], every other argument at its default:
    [ensure_ascii=True], [allow_nan=True], [sort_keys=False],
    [separators=None].  With an indent the item separator is [","], without
    one it is [", "]; the key separator is [": "]. *)
Definition json_dumps (indent : option nat) (obj : pyval) : result string :=
  match indent with
  | Some n => Encoder.iterencode (Some (str_mul " " n)) "," ": " true obj 0
  | None => Encoder.iterencode None ", " ": " true obj 0
  end.

(** ** [json.loads]: the decoder

    The decoder reads the text from left to right; each function takes the
    text that is left and returns its value with the text after it. *)

Module Decoder.

Definition is_ws (c : ascii) : bool :=
  Ascii.eqb c " " || Ascii.eqb c TAB || Ascii.eqb c LF || Ascii.eqb c CR.

(** [WHITESPACE.match(s, end).end()]. *)
Fixpoint skip_ws (s : string) : string :=
  match s with
  | String c s' => if is_ws c then skip_ws s' else s
  | EmptyString => s
  end.

Definition is_digit (c : ascii) : bool := (48 <=? ord c) && (ord c <=? 57).

Definition hex_value (c : ascii) : option Z :=
  let n := ord c in
  if (48 <=? n) && (n <=? 57) then Some (n - 48)
  else if (97 <=? n) && (n <=? 102) then Some (n - 87)
  else if (65 <=? n) && (n <=? 70) then Some (n - 55)
  else None.

(** [_decode_uXXXX] on the four characters after [\u]. *)
Definition decode_uXXXX (a b c d : ascii) : result Z :=
  match hex_value a, hex_value b, hex_value c, hex_value d with
  | Some x3, Some x2, Some x1, Some x0 => Ok (((x3 * 16 + x2) * 16 + x1) * 16 + x0)
  | _, _, _, _ => Raise (JSONDecodeError "Invalid \uXXXX escape")
  end.

(** The [BACKSLASH] table. *)
Definition unescape (esc : ascii) : option ascii :=
  if Ascii.eqb esc dquote then Some dquote
  else if Ascii.eqb esc backslash then Some backslash
  else if Ascii.eqb esc "/" then Some "/"%char
  else if Ascii.eqb esc "b" then Some BS
  else if Ascii.eqb esc "f" then Some FF
  else if Ascii.eqb esc "n" then Some LF
  else if Ascii.eqb esc "r" then Some CR
  else if Ascii.eqb esc "t" then Some TAB
  else None.

(** [py_scanstring] with [strict=True], from the character after the
    opening quote.  A [\u] escape of a code point from 256 on has no
    counterpart in [string] and is refused. *)
Fixpoint scanstring (s : string) : result (string * string) :=
  match s with
  | EmptyString => Raise (JSONDecodeError "Unterminated string starting at")
  | String c rest =>
      if Ascii.eqb c dquote then Ok ("", rest)
      else if Ascii.eqb c backslash then
        match rest with
        | EmptyString => Raise (JSONDecodeError "Unterminated string starting at")
        | String esc rest' =>
            if Ascii.eqb esc "u" then
              match rest' with
              | String h3 (String h2 (String h1 (String h0 rest''))) =>
                  uni <- decode_uXXXX h3 h2 h1 h0 ;;
                  if uni <? 256 then
                    ' (str, tail) <- scanstring rest'' ;;
                    Ok (String (ascii_of_N (Z.to_N uni)) str, tail)
                  else Raise (ValueError "code point outside the modelled range")
              | _ => Raise (JSONDecodeError "Invalid \uXXXX escape")
              end
            else
              match unescape esc with
              | Some ch =>
                  ' (str, tail) <- scanstring rest' ;;
                  Ok (String ch str, tail)
              | None => Raise (JSONDecodeError "Invalid \escape")
              end
        end
      else if ord c <? 32 then Raise (JSONDecodeError "Invalid control character at")
      else
        ' (str, tail) <- scanstring rest ;;
        Ok (String c str, tail)
  end.

(** The longest run of decimal digits at the head of the text. *)
Fixpoint take_digits (s : string) : string * string :=
  match s with
  | String c s' =>
      if is_digit c then let '(ds, rest) := take_digits s' in (String c ds, rest)
      else ("", s)
  | EmptyString => ("", s)
  end.

(** The value of a digit string, most significant digit first. *)
Fixpoint digits_value (acc : Z) (ds : string) : Z :=
  match ds with
  | EmptyString => acc
  | String c ds' => digits_value (acc * 10 + (ord c - 48)) ds'
  end.

(** The optional minus [-?] at the head of [NUMBER_RE]. *)
Definition match_minus (s : string) : bool * string :=
  match s with
  | String "-" t => (true, t)
  | _ => (false, s)
  end.

(** The integer part of [NUMBER_RE]: [0|[1-9][0-9]*]. *)
Definition match_integer (s : string) : option (string * string) :=
  match s with
  | String c s' =>
      if Ascii.eqb c "0" then Some ("0", s')
      else if is_digit c then Some (take_digits s)
      else None
  | EmptyString => None
  end.

(** The optional fraction [\.[0-9]+]: its digits, when present. *)
Definition match_frac (s : string) : string * string :=
  match s with
  | String "." s' =>
      match take_digits s' with
      | (EmptyString, _) => ("", s)
      | (ds, rest) => (ds, rest)
      end
  | _ => ("", s)
  end.

(** The optional sign [[-+]?] of an exponent: whether it is a minus. *)
Definition match_sign (s : string) : bool * string :=
  match s with
  | String "-" t => (true, t)
  | String "+" t => (false, t)
  | _ => (false, s)
  end.

(** The optional exponent [[eE][-+]?[0-9]+]: its value, when present. *)
Definition match_exp (s : string) : option Z * string :=
  match s with
  | String c s' =>
      if Ascii.eqb c "e" || Ascii.eqb c "E" then
        let '(neg, s'') := match_sign s' in
        match take_digits s'' with
        | (EmptyString, _) => (None, s)
        | (ds, rest) => (Some (if neg then - digits_value 0 ds else digits_value 0 ds), rest)
        end
      else (None, s)
  | EmptyString => (None, s)
  end.

(** [match_number] and the conversion of its groups: [int(integer)] when
    there is neither fraction nor exponent, [float(...)] otherwise. *)
Definition scan_number (s : string) : option (pyval * string) :=
  let '(neg, s0) := match_minus s in
  match match_integer s0 with
  | None => None
  | Some (int_ds, s1) =>
      let '(frac_ds, s2) := match_frac s1 in
      let '(exp, s3) := match_exp s2 in
      match frac_ds, exp with
      | EmptyString, None =>
          let n := digits_value 0 int_ds in
          Some (PyInt (if neg then - n else n), s3)
      | _, _ =>
          let d := digits_value 0 (int_ds ++ frac_ds) in
          let e := match exp with Some x => x | None => 0 end in
          Some (PyFloat (float_of_decimal neg d (e - Z.of_nat (String.length frac_ds))), s3)
      end
  end.

(** [_scan_once], [JSONObject] and [JSONArray].  The [while True] loops of
    the last two are [object_loop], entered after the opening quote of a
    key with the pairs read so far, and [array_loop], entered at an item
    with the values read so far.  [fuel] bounds the calls, nested or in
    succession; each call reads at least one character before the next. *)
Fixpoint scan_once (fuel : nat) (s : string) {struct fuel} : result (pyval * string) :=
  match fuel with
  | O => Raise RecursionError
  | S f =>
      match s with
      | EmptyString => Raise (JSONDecodeError "Expecting value")
      | String nextchar rest =>
          if Ascii.eqb nextchar dquote then
            ' (str, tail) <- scanstring rest ;;
            Ok (PyStr str, tail)
          else if Ascii.eqb nextchar "{" then
            match skip_ws rest with
            | String "}" tail => Ok (PyDict [], tail)
            | String c tail =>
                if Ascii.eqb c dquote then object_loop f tail []
                else Raise (JSONDecodeError
                              "Expecting property name enclosed in double quotes")
            | EmptyString =>
                Raise (JSONDecodeError "Expecting property name enclosed in double quotes")
            end
          else if Ascii.eqb nextchar "[" then
            match skip_ws rest with
            | String "]" tail => Ok (PyList [], tail)
            | s' => array_loop f s' []
            end
          else
            match strip_prefix "null" s, strip_prefix "true" s, strip_prefix "false" s with
            | Some tail, _, _ => Ok (PyNone, tail)
            | _, Some tail, _ => Ok (PyBool true, tail)
            | _, _, Some tail => Ok (PyBool false, tail)
            | None, None, None =>
                match scan_number s with
                | Some r => Ok r
                | None =>
                    match strip_prefix "NaN" s, strip_prefix "Infinity" s,
                          strip_prefix "-Infinity" s with
                    | Some tail, _, _ => Ok (PyFloat S754_nan, tail)
                    | _, Some tail, _ => Ok (PyFloat (S754_infinity false), tail)
                    | _, _, Some tail => Ok (PyFloat (S754_infinity true), tail)
                    | None, None, None => Raise (JSONDecodeError "Expecting value")
                    end
                end
            end
      end
  end

with object_loop (fuel : nat) (s : string) (pairs : list (string * pyval)) {struct fuel}
  : result (pyval * string) :=
  match fuel with
  | O => Raise RecursionError
  | S f =>
      ' (key, s1) <- scanstring s ;;
      match skip_ws s1 with
      | String ":" s2 =>
          ' (value, s3) <- scan_once f (skip_ws s2) ;;
          let pairs' := (pairs ++ [(key, value)])%list in
          match skip_ws s3 with
          | String "}" tail => Ok (dict_of pairs', tail)
          | String "," s4 =>
              match skip_ws s4 with
              | String c s5 =>
                  if Ascii.eqb c dquote then object_loop f s5 pairs'
                  else Raise (JSONDecodeError
                                "Expecting property name enclosed in double quotes")
              | EmptyString =>
                  Raise (JSONDecodeError "Expecting property name enclosed in double quotes")
              end
          | _ => Raise (JSONDecodeError "Expecting ',' delimiter")
          end
      | _ => Raise (JSONDecodeError "Expecting ':' delimiter")
      end
  end

with array_loop (fuel : nat) (s : string) (vals : list pyval) {struct fuel}
  : result (pyval * string) :=
  match fuel with
  | O => Raise RecursionError
  | S f =>
      ' (value, s1) <- scan_once f s ;;
      let vals' := (vals ++ [value])%list in
      match skip_ws s1 with
      | String "]" tail => Ok (PyList vals', tail)
      | String "," s2 => array_loop f (skip_ws s2) vals'
      | _ => Raise (JSONDecodeError "Expecting ',' delimiter")
      end
  end.

(** [JSONDecoder.decode]: one value, with whitespace around it and nothing
    else.  The fuel is one more than the length of the text. *)
Definition decode (s : string) : result pyval :=
  ' (obj, rest) <- scan_once (S (String.length s)) (skip_ws s) ;;
  match skip_ws rest with
  | EmptyString => Ok obj
  | _ => Raise (JSONDecodeError "Extra data")
  end.

End Decoder.

(** [json.loads(s)] for a [str] and default arguments. *)
Definition json_loads (s : string) : result pyval := Decoder.decode s.

(** ** The report *)

(** The float literals [1383851.59] and [225572.34] of the source text. *)
Definition polymarket_ui_volume : float := float_of_decimal false 138385159 (-2).
Definition pnl_v2_canonical_volume : float := float_of_decimal false 22557234 (-2).

(** Data collected from TypeScript analysis. *)
Definition erc1155_data : pyval :=
  dict_of [
    ("wallet_cluster", dict_of [
      ("eoa", PyStr "0xcce2b7c71f21e358b8e5e797e586cbc03160d58b");
      ("proxy", PyStr "0xd59d03eeb0fd5979c702ba20bcc25da2ae1d9723");
      ("type", PyStr "Safe (proxy wallet)")
    ]);
    ("erc1155_transfers", dict_of [
      ("total", PyInt 249);
      ("direction_breakdown", dict_of [
        ("to_eoa", PyInt 180);
        ("from_eoa", PyInt 69)
      ]);
      ("time_range", dict_of [
        ("earliest", PyStr "2024-08-21 17:57:45");
        ("latest", PyStr "2025-10-30 20:58:09")
      ]);
      ("monthly_breakdown", dict_of [
        ("2024-08", PyInt 22);
        ("2024-09", PyInt 78);
        ("2024-10", PyInt 39);
        ("2024-11", PyInt 22);
        ("2024-12", PyInt 14);
        ("2025-01", PyInt 9);
        ("2025-02", PyInt 10);
        ("2025-03", PyInt 6);
        ("2025-04", PyInt 3);
        ("2025-05", PyInt 1);
        ("2025-06", PyInt 0);
        ("2025-07", PyInt 0);
        ("2025-08", PyInt 0);
        ("2025-09", PyInt 38);
        ("2025-10", PyInt 7)
      ])
    ]);
    ("canonical_trades", dict_of [
      ("count", PyStr "UNKNOWN");
      ("total_usd_value", PyStr "UNKNOWN")
    ]);
    ("polymarket_ui_volume", PyFloat polymarket_ui_volume);
    ("pnl_v2_canonical_volume", PyFloat pnl_v2_canonical_volume);
    ("sample_transfers", PyList [
      dict_of [
        ("timestamp", PyStr "2025-10-30 20:58:09");
        ("direction", PyStr "OUTBOUND");
        ("tx_hash", PyStr "0xabffebff511763210395f59ba99ab3f186ca1ca973c333b4cf0d6803328217cb");
        ("value_hex", PyStr "0x12560fb0")
      ];
      dict_of [
        ("timestamp", PyStr "2025-10-15 00:38:45");
        ("direction", PyStr "INBOUND");
        ("tx_hash", PyStr "0xd3ea4e87ebd74eb8c38df371e83fc9c90d3326c942d3831e88232ca971b47f65");
        ("value_hex", PyStr "0x3b9aca00")
      ]
    ])
  ].

(** ** The script and its process

    The state of a run is what has been written to standard output so far,
    one entry for each completed [print] call.  A statement either goes on
    or raises; an exception that nothing catches ends the process with
    status 1, the end of the script with status 0. *)

Definition stdout_t : Type := list string.

Definition Py (A : Type) : Type := stdout_t -> result A * stdout_t.

Definition lift {A : Type} (r : result A) : Py A := fun out => (r, out).

Definition and_then {A B : Type} (c : Py A) (k : A -> Py B) : Py B :=
  fun out =>
    match c out with
    | (Ok a, out') => k a out'
    | (Raise e, out') => (Raise e, out')
    end.

Notation "x <~ c ;;; k" := (and_then c (fun x => k))
  (at level 61, c at next level, right associativity).

(** [print(s)]: the text and the default [end], a newline, go to standard
    output. *)
Definition print (s : string) : Py unit :=
  fun out => (Ok tt, List.app out [s ++ nl]).

(** [print(json.dumps(erc1155_data, indent=2))] *)
Definition main : Py unit :=
  text <~ lift (json_dumps (Some 2%nat) erc1155_data) ;;;
  print text.

Definition exit_status (r : result unit) : Z :=
  match r with
  | Ok _ => 0
  | Raise _ => 1
  end.

(** One run of the script, started with [before] already on standard
    output: the writes of this run and the exit status. *)
Definition run (before : stdout_t) : stdout_t * Z :=
  let '(r, after) := main before in
  (skipn (List.length before) after, exit_status r).

(** The whole text on standard output after a run from an empty stream. *)
Definition program_output : string := String.concat "" (fst (run [])).

(** ** Reading the report *)

(** [obj[k1][k2]...[kn]]. *)
Fixpoint get_path (obj : pyval) (path : list string) : result pyval :=
  match path with
  | [] => Ok obj
  | k :: path' => v <- getitem obj k ;; get_path v path'
  end.

(** [sum(vs)] for a sequence of integers. *)
Fixpoint sum_ints (vs : list pyval) : result Z :=
  match vs with
  | [] => Ok 0
  | v :: vs' => n <- as_int v ;; rest <- sum_ints vs' ;; Ok (n + rest)
  end.

(** The keys of every dict inside a value, in the order a reader meets
    them: a key, then the keys inside its value, then the next key. *)
Fixpoint declared_keys (v : pyval) : list string :=
  match v with
  | PyDict items =>
      (fix go (l : list (string * pyval)) : list string :=
         match l with
         | [] => []
         | (k, x) :: rest => (k :: declared_keys x ++ go rest)%list
         end) items
  | PyList items =>
      (fix go (l : list pyval) : list string :=
         match l with
         | [] => []
         | x :: rest => (declared_keys x ++ go rest)%list
         end) items
  | _ => []
  end.

(** No [bytes] object anywhere inside the value. *)
Fixpoint serializable (v : pyval) : bool :=
  match v with
  | PyBytes _ => false
  | PyList items => forallb serializable items
  | PyDict items => forallb (fun kv => serializable (snd kv)) items
  | _ => true
  end.

(** *** Calendar months and timestamps *)

Definition two_digits (n : Z) : string :=
  if n <? 10 then "0" ++ string_of_Z n else string_of_Z n.

(** The label [YYYY-MM] of month [m] (1 to 12) of year [y]. *)
Definition month_label (y m : Z) : string :=
  string_of_Z y ++ "-" ++ two_digits m.

(** [n] consecutive calendar months from month [m] of year [y] on. *)
Fixpoint months_from (y m : Z) (n : nat) : list string :=
  match n with
  | O => []
  | S n' =>
      month_label y m ::
        (if m =? 12 then months_from (y + 1) 1 n' else months_from y (m + 1) n')
  end.

(** The month of a timestamp [YYYY-MM-DD hh:mm:ss]: [ts[:7]]. *)
Definition month_of (ts : string) : string := str_take 7 ts.

(** The digits of a timestamp read as one number, [YYYYMMDDhhmmss]: the
    timestamps in chronological order are these numbers in increasing
    order. *)
Fixpoint only_digits (s : string) : string :=
  match s with
  | EmptyString => ""
  | String c s' => if Decoder.is_digit c then String c (only_digits s') else only_digits s'
  end.

Definition chronological_key (ts : string) : Z :=
  Decoder.digits_value 0 (only_digits ts).

(** *** The shape of a rendered text *)

(** The leading spaces of a line, counted, and what follows them. *)
Fixpoint leading_spaces (line : string) : nat * string :=
  match line with
  | String " " rest => let '(n, body) := leading_spaces rest in (S n, body)
  | _ => (O, line)
  end.

Fixpoint last_char (s : string) : option ascii :=
  match s with
  | EmptyString => None
  | String c EmptyString => Some c
  | String _ s' => last_char s'
  end.

Definition opens (body : string) : bool :=
  match last_char body with
  | Some c => Ascii.eqb c "{" || Ascii.eqb c "["
  | None => false
  end.

Definition closes (body : string) : bool :=
  match body with
  | String c _ => Ascii.eqb c "}" || Ascii.eqb c "]"
  | EmptyString => false
  end.

(** Every line is indented by [step] spaces for each bracket that is open
    around it, a closing bracket standing at the level of the line that
    opened it; [depth] is the number of open brackets before the first
    line, and all are closed after the last. *)
Fixpoint indentation_ok (step : nat) (depth : nat) (lines : list string) : bool :=
  match lines with
  | [] => Nat.eqb depth 0
  | line :: rest =>
      let '(n, body) := leading_spaces line in
      let here := if closes body then Nat.pred depth else depth in
      negb (String.eqb body "")
      && (negb (closes body) || negb (Nat.eqb depth 0))
      && Nat.eqb n (step * here)
      && indentation_ok step (if opens body then S here else here) rest
  end.

(** The key a line starts with, when it starts with one: a quoted string
    followed by a colon. *)
Definition key_of_line (line : string) : option string :=
  match snd (leading_spaces line) with
  | String c rest =>
      if Ascii.eqb c dquote then
        match Decoder.scanstring rest with
        | Ok (key, String ":" _) => Some key
        | _ => None
        end
      else None
  | EmptyString => None
  end.

Fixpoint keys_in_lines (lines : list string) : list string :=
  match lines with
  | [] => []
  | line :: rest =>
      match key_of_line line with
      | Some k => k :: keys_in_lines rest
      | None => keys_in_lines rest
      end
  end.

(** The parts of the report the properties below speak about. *)

Definition field (obj : pyval) (path : list string) : pyval :=
  match get_path obj path with
  | Ok v => v
  | Raise _ => PyNone
  end.

Definition erc1155_transfers : pyval := field erc1155_data ["erc1155_transfers"].
Definition direction_breakdown : pyval := field erc1155_transfers ["direction_breakdown"].
Definition time_range : pyval := field erc1155_transfers ["time_range"].
Definition monthly_breakdown : pyval := field erc1155_transfers ["monthly_breakdown"].
Definition sample_transfers : list pyval := elements (field erc1155_data ["sample_transfers"]).

(** ** The rendering the specification describes

    The lines of the pretty-printed report, written out.  In this table
    the character ['] stands for the double quote. *)

Fixpoint unq (s : string) : string :=
  match s with
  | EmptyString => ""
  | String c s' => String (if Ascii.eqb c "'" then dquote else c) (unq s')
  end.

Definition expected_lines : list string := map unq [
  "{";
  "  'wallet_cluster': {";
  "    'eoa': '0xcce2b7c71f21e358b8e5e797e586cbc03160d58b',";
  "    'proxy': '0xd59d03eeb0fd5979c702ba20bcc25da2ae1d9723',";
  "    'type': 'Safe (proxy wallet)'";
  "  },";
  "  'erc1155_transfers': {";
  "    'total': 249,";
  "    'direction_breakdown': {";
  "      'to_eoa': 180,";
  "      'from_eoa': 69";
  "    },";
  "    'time_range': {";
  "      'earliest': '2024-08-21 17:57:45',";
  "      'latest': '2025-10-30 20:58:09'";
  "    },";
  "    'monthly_breakdown': {";
  "      '2024-08': 22,";
  "      '2024-09': 78,";
  "      '2024-10': 39,";
  "      '2024-11': 22,";
  "      '2024-12': 14,";
  "      '2025-01': 9,";
  "      '2025-02': 10,";
  "      '2025-03': 6,";
  "      '2025-04': 3,";
  "      '2025-05': 1,";
  "      '2025-06': 0,";
  "      '2025-07': 0,";
  "      '2025-08': 0,";
  "      '2025-09': 38,";
  "      '2025-10': 7";
  "    }";
  "  },";
  "  'canonical_trades': {";
  "    'count': 'UNKNOWN',";
  "    'total_usd_value': 'UNKNOWN'";
  "  },";
  "  'polymarket_ui_volume': 1383851.59,";
  "  'pnl_v2_canonical_volume': 225572.34,";
  "  'sample_transfers': [";
  "    {";
  "      'timestamp': '2025-10-30 20:58:09',";
  "      'direction': 'OUTBOUND',";
  "      'tx_hash': '0xabffebff511763210395f59ba99ab3f186ca1ca973c333b4cf0d6803328217cb',";
  "      'value_hex': '0x12560fb0'";
  "    },";
  "    {";
  "      'timestamp': '2025-10-15 00:38:45',";
  "      'direction': 'INBOUND',";
  "      'tx_hash': '0xd3ea4e87ebd74eb8c38df371e83fc9c90d3326c942d3831e88232ca971b47f65',";
  "      'value_hex': '0x3b9aca00'";
  "    }";
  "  ]";
  "}"
].

Definition expected_text : string := String.concat nl expected_lines.

(** ** Values that survive the round trip *)

(** The same float: the same sign, mantissa and exponent. *)
Definition float_same (x y : float) : bool :=
  match x, y with
  | S754_zero a, S754_zero b => Bool.eqb a b
  | S754_infinity a, S754_infinity b => Bool.eqb a b
  | S754_nan, S754_nan => true
  | S754_finite a m e, S754_finite b m' e' => Bool.eqb a b && Pos.eqb m m' && Z.eqb e e'
  | _, _ => false
  end.

(** A float whose [repr] is a JSON number that reads back as the float. *)
Definition float_reads_back (x : float) : bool :=
  match Decoder.scan_number (float_repr x) with
  | Some (PyFloat y, EmptyString) => float_same x y
  | _ => false
  end.

Fixpoint distinct (l : list string) : bool :=
  match l with
  | [] => true
  | k :: rest => negb (existsb (String.eqb k) rest) && distinct rest
  end.

(** The values [json.loads] gives back as they were: no [bytes], floats
    that read back, and no key twice in a dict. *)
Fixpoint round_trip_safe (v : pyval) : bool :=
  match v with
  | PyBytes _ => false
  | PyFloat x => float_reads_back x
  | PyList items => forallb round_trip_safe items
  | PyDict items =>
      distinct (map fst items) && forallb (fun kv => round_trip_safe (snd kv)) items
  | _ => true
  end.

(** The number of values inside a value, itself included, plus one for
    every item of a list or dict: the calls the decoder makes to read it. *)
Fixpoint size (v : pyval) : nat :=
  match v with
  | PyList items => S (fold_right (fun x n => S (size x + n)%nat) O items)
  | PyDict items => S (fold_right (fun kv n => S (size (snd kv) + n)%nat) O items)
  | _ => 1%nat
  end.

Fixpoint all_ws (s : string) : bool :=
  match s with
  | EmptyString => true
  | String c s' => Decoder.is_ws c && all_ws s'
  end.

(** What may follow a value in a document: nothing, whitespace, a comma or
    a closing bracket. *)
Definition ends_value (rest : string) : bool :=
  match rest with
  | EmptyString => true
  | String c _ =>
      Decoder.is_ws c || Ascii.eqb c "," || Ascii.eqb c "]" || Ascii.eqb c "}"
  end.

(** The first character of the text of a value: neither whitespace nor a
    closing bracket. *)
Definition starts_value (s : string) : bool :=
  match s with
  | EmptyString => false
  | String c _ => negb (Decoder.is_ws c) && negb (Ascii.eqb c "]")
  end.

(** What the round trip needs of one value, for an encoder [enc]: its text,
    followed by anything that may follow a value, is read back as the
    value by a decoder with fuel for every value inside. *)
Definition reads_back (enc : pyval -> nat -> result string) (v : pyval) : Prop :=
  round_trip_safe v = true ->
  forall level text rest fuel,
    enc v level = Ok text -> ends_value rest = true -> (size v <= fuel)%nat ->
    Decoder.scan_once fuel (text ++ rest) = Ok (v, rest).

(** The text of a value is at least as long as the value is large. *)
Definition long_enough (enc : pyval -> nat -> result string) (v : pyval) : Prop :=
  round_trip_safe v = true ->
  forall level text, enc v level = Ok text -> (size v <= String.length text)%nat.

(** ** The script for any data *)

(** [print(json.dumps(obj, indent=indent))]: the statement of the script with
    the data and the indent as parameters.  The argument is evaluated before
    [print] is called. *)
Definition print_json (indent : option nat) (obj : pyval) : Py unit :=
  text <~ lift (json_dumps indent obj) ;;;
  print text.

(** *** Classes of characters *)

Fixpoint all_chars (p : ascii -> bool) (s : string) : bool :=
  match s with
  | EmptyString => true
  | String c s' => p c && all_chars p s'
  end.

(** The printable ASCII characters, [' '] to ['~']. *)
Definition printable (c : ascii) : bool := (32 <=? ord c) && (ord c <=? 126).

(** The characters of a numeral, and the letters of [NaN] and [Infinity]:
    printable, and none of them a space, a quote, a bracket, a comma or a
    colon. *)
Definition token_char (c : ascii) : bool :=
  printable c
  && negb (Ascii.eqb c " ") && negb (Ascii.eqb c dquote)
  && negb (Ascii.eqb c "{") && negb (Ascii.eqb c "}")
  && negb (Ascii.eqb c "[") && negb (Ascii.eqb c "]")
  && negb (Ascii.eqb c ",") && negb (Ascii.eqb c ":").

(** A character of an ASCII text: printable, or the newline. *)
Definition text_char (c : ascii) : bool := printable c || Ascii.eqb c LF.

(** *** Walking the lines of a rendered text *)

(** [indentation_ok] as a walk: the depth after the lines, when every line
    is indented as its depth asks. *)
Fixpoint indent_walk (step : nat) (depth : nat) (lines : list string) : option nat :=
  match lines with
  | [] => Some depth
  | line :: rest =>
      let '(n, body) := leading_spaces line in
      let here := if closes body then Nat.pred depth else depth in
      if negb (String.eqb body "")
         && (negb (closes body) || negb (Nat.eqb depth 0))
         && Nat.eqb n (step * here)
      then indent_walk step (if opens body then S here else here) rest
      else None
  end.

(** No raw newline in a string. *)
Definition nolf (s : string) : bool := all_chars (fun c => negb (Ascii.eqb c LF)) s.

(** The first character of what a line holds after its indentation: not a
    space and not a closing bracket. *)
Definition head_ok (s : string) : bool :=
  match s with
  | EmptyString => false
  | String c _ => negb (Ascii.eqb c " ") && negb (Ascii.eqb c "}") && negb (Ascii.eqb c "]")
  end.

(** What comes before a value on its line: nothing, or its key and the key
    separator. *)
Definition key_prefix (key : option string) : string :=
  match key with
  | Some k => Encoder.encode_basestring_ascii k ++ ": "
  | None => ""
  end.

Definition key_list (key : option string) : list string :=
  match key with
  | Some k => [k]
  | None => []
  end.

(** The error [json.dumps] raises for a [bytes] object. *)
Definition not_serializable_error : exn :=
  TypeError "Object of type bytes is not JSON serializable".

(** What comes before a value on its line, after the indentation: nothing,
    or a key and its separator. *)
Definition before_ok (p : string) : Prop :=
  nolf p = true /\ (p = "" \/ head_ok p = true).

(** What comes after a value on its last line: nothing, or the comma
    before the next item. *)
Definition after_ok (post : string) : Prop := post = "" \/ post = ",".

(** The text of a value on its line or lines, rendered with [indent=n]:
    from depth [L] the walk over the lines comes back to depth [L]. *)
Definition indented (n : nat) (v : pyval) : Prop :=
  forall L text p post,
    Encoder.iterencode (Some (str_mul " " n)) "," ": " true v L = Ok text ->
    before_ok p -> after_ok post ->
    indent_walk n L (split_on LF ((str_mul (str_mul " " n) L ++ p) ++ text ++ post))
    = Some L.

(** The first character of a text that is not a string: neither a space
    nor a quote. *)
Definition plain_head (text : string) : bool :=
  match text with
  | String c _ => negb (Ascii.eqb c " ") && negb (Ascii.eqb c dquote)
  | EmptyString => true
  end.

(** The keys of a value on its lines, rendered with [indent=n], after the
    key that the first line may start with. *)
Definition keyed (n : nat) (v : pyval) : Prop :=
  forall L text key post,
    Encoder.iterencode (Some (str_mul " " n)) "," ": " true v L = Ok text ->
    after_ok post ->
    keys_in_lines
      (split_on LF ((str_mul (str_mul " " n) L ++ key_prefix key) ++ text ++ post))
    = (key_list key ++ declared_keys v)%list.

(** ** Induction on values *)

Section PyvalInd.

Variable P : pyval -> Prop.
Hypothesis HNone : P PyNone.
Hypothesis HBool : forall b, P (PyBool b).
Hypothesis HInt : forall n, P (PyInt n).
Hypothesis HFloat : forall x, P (PyFloat x).
Hypothesis HStr : forall s, P (PyStr s).
Hypothesis HBytes : forall s, P (PyBytes s).
Hypothesis HList : forall items, Forall P items -> P (PyList items).
Hypothesis HDict : forall items, Forall (fun kv => P (snd kv)) items -> P (PyDict items).

Fixpoint pyval_nested_ind (v : pyval) : P v :=
  match v with
  | PyNone => HNone
  | PyBool b => HBool b
  | PyInt n => HInt n
  | PyFloat x => HFloat x
  | PyStr s => HStr s
  | PyBytes s => HBytes s
  | PyList items =>
      HList items
        ((fix all (l : list pyval) : Forall P l :=
            match l with
            | [] => Forall_nil P
            | x :: rest => Forall_cons x (pyval_nested_ind x) (all rest)
            end) items)
  | PyDict items =>
      HDict items
        ((fix all (l : list (string * pyval)) : Forall (fun kv => P (snd kv)) l :=
            match l with
            | [] => Forall_nil _
            | kv :: rest => Forall_cons kv (pyval_nested_ind (snd kv)) (all rest)
            end) items)
  end.

End PyvalInd.

(** ** The encoder never fails on a value without [bytes] *)

Section EncoderTotal.

Variable ind : option string.
Variable isep ksep : string.

Lemma floatstr_total (x : float) : exists s, Encoder.floatstr true x = Ok s.
Proof. destruct x; simpl; eauto. Qed.

Lemma list_chunks_total (f : pyval -> result string) (sep : string) (l : list pyval) :
  Forall (fun v => exists s, f v = Ok s) l ->
  forall first, exists body, Encoder.list_chunks f sep l first = Ok body.
Proof.
  induction 1 as [|v l [s Hs] _ IH]; intros first; simpl.
  - eauto.
  - rewrite Hs. simpl. destruct (IH false) as [more Hmore]. rewrite Hmore. simpl. eauto.
Qed.

Lemma dict_chunks_total (f : pyval -> result string) (sep : string)
      (l : list (string * pyval)) :
  Forall (fun kv => exists s, f (snd kv) = Ok s) l ->
  forall first, exists body, Encoder.dict_chunks ksep f sep l first = Ok body.
Proof.
  induction 1 as [|[k v] l [s Hs] _ IH]; intros first; simpl in *.
  - eauto.
  - rewrite Hs. simpl. destruct (IH false) as [more Hmore]. rewrite Hmore. simpl. eauto.
Qed.

Lemma iterencode_total (v : pyval) :
  serializable v = true ->
  forall level, exists s, Encoder.iterencode ind isep ksep true v level = Ok s.
Proof.
  induction v as [| b | n | x | s | s | items IH | items IH] using pyval_nested_ind;
    intros Hser level.
  - simpl; eauto.
  - destruct b; simpl; eauto.
  - simpl; eauto.
  - apply floatstr_total.
  - simpl; eauto.
  - discriminate Hser.
  - set (f := fun value => Encoder.iterencode ind isep ksep true value (S level)).
    set (sep := isep ++ Encoder.newline_indent ind (S level)).
    assert (Hall : Forall (fun v => exists s, f v = Ok s) items).
    { simpl in Hser. rewrite forallb_forall in Hser. rewrite Forall_forall in *.
      intros v Hv. apply IH; auto. }
    destruct items as [|v0 items0]; [simpl; eauto|].
    destruct (list_chunks_total f sep _ Hall true) as [body Hbody].
    change (exists s,
               (body <- Encoder.list_chunks f sep (v0 :: items0) true ;;
                Ok ("[" ++ Encoder.newline_indent ind (S level) ++ body
                        ++ Encoder.newline_indent ind level ++ "]")) = Ok s).
    rewrite Hbody. simpl. eauto.
  - set (f := fun value => Encoder.iterencode ind isep ksep true value (S level)).
    set (sep := isep ++ Encoder.newline_indent ind (S level)).
    assert (Hall : Forall (fun kv => exists s, f (snd kv) = Ok s) items).
    { simpl in Hser. rewrite forallb_forall in Hser. rewrite Forall_forall in *.
      intros kv Hkv. apply IH; auto. }
    destruct items as [|kv0 items0]; [simpl; eauto|].
    destruct (dict_chunks_total f sep _ Hall true) as [body Hbody].
    change (exists s,
               (body <- Encoder.dict_chunks ksep f sep (kv0 :: items0) true ;;
                Ok ("{" ++ Encoder.newline_indent ind (S level) ++ body
                        ++ Encoder.newline_indent ind level ++ "}")) = Ok s).
    rewrite Hbody. simpl. eauto.
Qed.

End EncoderTotal.

Lemma json_dumps_total (indent : option nat) (obj : pyval) :
  serializable obj = true -> exists text, json_dumps indent obj = Ok text.
Proof.
  intros H. destruct indent; unfold json_dumps; apply iterencode_total; assumption.
Qed.

(** ** Reading a string back *)

Lemma scanstring_escape_char (c : ascii) (tail : string) :
  Decoder.scanstring (Encoder.escape_char c ++ tail) =
  (' (str, rest) <- Decoder.scanstring tail ;; Ok (String c str, rest)).
Proof.
  destruct c as [[] [] [] [] [] [] [] []]; reflexivity.
Qed.

Lemma append_assoc (a b c : string) : (a ++ b) ++ c = a ++ (b ++ c).
Proof. induction a as [|x a IH]; simpl; [reflexivity | now rewrite IH]. Qed.

Lemma scanstring_escape (s rest : string) :
  Decoder.scanstring (Encoder.escape s ++ String dquote rest) = Ok (s, rest).
Proof.
  induction s as [|c s IH].
  - reflexivity.
  - simpl Encoder.escape. rewrite append_assoc, scanstring_escape_char, IH. reflexivity.
Qed.

(** ** Reading an integer back *)

Lemma digits_value_acc (u : uint) (acc : positive) :
  Decoder.digits_value (Zpos acc) (NilEmpty.string_of_uint u) = Zpos (Pos.of_uint_acc u acc).
Proof.
  revert acc.
  induction u; intros acc;
    cbn [NilEmpty.string_of_uint Decoder.digits_value Pos.of_uint_acc];
    try reflexivity; rewrite <- IHu; f_equal;
    match goal with
    | |- context [ord ?c - 48] =>
        let v := eval vm_compute in (ord c - 48) in change (ord c - 48) with v
    end; lia.
Qed.

Lemma digits_value_of_uint (u : uint) :
  Decoder.digits_value 0 (NilEmpty.string_of_uint u) = Z.of_N (Pos.of_uint u).
Proof.
  induction u; simpl; try reflexivity; try assumption; apply digits_value_acc.
Qed.

Lemma take_digits_of_uint (u : uint) :
  Decoder.take_digits (NilEmpty.string_of_uint u) = (NilEmpty.string_of_uint u, "").
Proof.
  induction u; simpl; try reflexivity;
    change (Decoder.is_digit _) with true; cbv iota; rewrite IHu; reflexivity.
Qed.

Lemma nzhead_not_D0 (d l : uint) : nzhead d <> D0 l.
Proof. induction d; simpl; try discriminate; assumption. Qed.

Lemma to_uint_head (p : positive) :
  match Pos.to_uint p with
  | Nil | D0 _ => False
  | _ => True
  end.
Proof.
  pose proof (Unsigned.to_of (Pos.to_uint p)) as H.
  rewrite Unsigned.of_to in H. simpl in H.
  pose proof (Unsigned.to_uint_nonzero p) as Hnz.
  pose proof (Unsigned.to_uint_nonnil p) as Hnn.
  destruct (Pos.to_uint p) as [|l| | | | | | | | |] eqn:E; try exact I; try congruence.
  rewrite unorm_D0 in H. unfold unorm in H.
  destruct (nzhead l) eqn:El; try (exfalso; inversion H; subst; eapply nzhead_not_D0; eassumption).
  inversion H; subst. now apply Hnz.
Qed.

Lemma scan_number_digits (c : ascii) (s : string) :
  Decoder.is_digit c = true -> c <> "0"%char -> Decoder.take_digits s = (s, "") ->
  Decoder.scan_number (String c s) = Some (PyInt (Decoder.digits_value 0 (String c s)), "").
Proof.
  intros Hd H0 Hs.
  destruct c as [[] [] [] [] [] [] [] []]; try discriminate Hd; try (now elim H0);
    unfold Decoder.scan_number, Decoder.match_integer; simpl; rewrite Hs; reflexivity.
Qed.

Lemma scan_number_minus (c : ascii) (s : string) :
  Decoder.is_digit c = true -> c <> "0"%char -> Decoder.take_digits s = (s, "") ->
  Decoder.scan_number (String "-" (String c s))
  = Some (PyInt (- Decoder.digits_value 0 (String c s)), "").
Proof.
  intros Hd H0 Hs.
  destruct c as [[] [] [] [] [] [] [] []]; try discriminate Hd; try (now elim H0);
    unfold Decoder.scan_number, Decoder.match_integer; simpl; rewrite Hs; reflexivity.
Qed.

Lemma scan_once_number (fuel : nat) (c : ascii) (s : string) (r : pyval * string) :
  (Decoder.is_digit c || Ascii.eqb c "-") = true ->
  Decoder.scan_number (String c s) = Some r ->
  Decoder.scan_once (S fuel) (String c s) = Ok r.
Proof.
  intros Hc Hr.
  destruct c as [[] [] [] [] [] [] [] []]; try discriminate Hc;
    cbn -[Decoder.scan_number]; rewrite Hr; reflexivity.
Qed.

Lemma to_uint_string (p : positive) :
  exists c s,
    NilZero.string_of_uint (Pos.to_uint p) = String c s /\
    Decoder.is_digit c = true /\ c <> "0"%char /\
    Decoder.take_digits s = (s, "") /\
    Decoder.digits_value 0 (String c s) = Zpos p.
Proof.
  pose proof (to_uint_head p) as Hhead.
  pose proof (digits_value_of_uint (Pos.to_uint p)) as Hval.
  rewrite Unsigned.of_to in Hval.
  destruct (Pos.to_uint p) as [|l|l|l|l|l|l|l|l|l|l]; try contradiction;
    (eexists; eexists; split; [reflexivity|]);
    (split; [reflexivity|]); (split; [discriminate|]);
    (split; [apply take_digits_of_uint | exact Hval]).
Qed.

(** ** What follows a value does not change how it is read *)

Lemma append_nil_r (s : string) : s ++ "" = s.
Proof. induction s as [|c s IH]; simpl; [reflexivity | now rewrite IH]. Qed.

Lemma skip_ws_all_ws (w s : string) :
  all_ws w = true -> Decoder.skip_ws (w ++ s) = Decoder.skip_ws s.
Proof.
  induction w as [|c w IH]; simpl; [reflexivity|].
  intros H. apply andb_prop in H as [Hc Hw]. rewrite Hc. auto.
Qed.

Lemma take_digits_app (s rest : string) :
  ends_value rest = true ->
  Decoder.take_digits (s ++ rest) =
  (fst (Decoder.take_digits s), snd (Decoder.take_digits s) ++ rest).
Proof.
  intros Hrest. induction s as [|c s IH]; simpl.
  - destruct rest as [|c rest]; [reflexivity|].
    simpl in *. destruct c as [[] [] [] [] [] [] [] []]; try discriminate Hrest; reflexivity.
  - destruct (Decoder.is_digit c); [|reflexivity].
    rewrite IH. destruct (Decoder.take_digits s). reflexivity.
Qed.

Lemma match_frac_app (s rest : string) :
  ends_value rest = true ->
  Decoder.match_frac (s ++ rest) =
  (fst (Decoder.match_frac s), snd (Decoder.match_frac s) ++ rest).
Proof.
  intros Hrest. destruct s as [|c s].
  - destruct rest as [|c rest]; [reflexivity|].
    simpl in *. destruct c as [[] [] [] [] [] [] [] []]; try discriminate Hrest; reflexivity.
  - destruct c as [[] [] [] [] [] [] [] []]; try reflexivity.
    cbn [append Decoder.match_frac]. rewrite (take_digits_app s rest Hrest).
    destruct (Decoder.take_digits s) as [[|d ds] t]; reflexivity.
Qed.

Lemma match_sign_app (s rest : string) :
  ends_value rest = true ->
  Decoder.match_sign (s ++ rest) =
  (fst (Decoder.match_sign s), snd (Decoder.match_sign s) ++ rest).
Proof.
  intros Hrest. destruct s as [|c s].
  - destruct rest as [|c rest]; [reflexivity|].
    simpl in *. destruct c as [[] [] [] [] [] [] [] []]; try discriminate Hrest; reflexivity.
  - destruct c as [[] [] [] [] [] [] [] []]; reflexivity.
Qed.

Lemma match_exp_app (s rest : string) :
  ends_value rest = true ->
  Decoder.match_exp (s ++ rest) =
  (fst (Decoder.match_exp s), snd (Decoder.match_exp s) ++ rest).
Proof.
  intros Hrest. destruct s as [|c s].
  - destruct rest as [|c rest]; [reflexivity|].
    simpl in *. destruct c as [[] [] [] [] [] [] [] []]; try discriminate Hrest; reflexivity.
  - unfold Decoder.match_exp. cbn [append].
    destruct (Ascii.eqb c "e" || Ascii.eqb c "E"); [|reflexivity].
    rewrite (match_sign_app s rest Hrest).
    destruct (Decoder.match_sign s) as [neg s'']. cbn [fst snd].
    rewrite (take_digits_app s'' rest Hrest).
    destruct (Decoder.take_digits s'') as [[|d ds] t]; reflexivity.
Qed.

Lemma match_minus_app (s rest : string) :
  ends_value rest = true ->
  Decoder.match_minus (s ++ rest) =
  (fst (Decoder.match_minus s), snd (Decoder.match_minus s) ++ rest).
Proof.
  intros Hrest. destruct s as [|c s].
  - destruct rest as [|c rest]; [reflexivity|].
    simpl in *. destruct c as [[] [] [] [] [] [] [] []]; try discriminate Hrest; reflexivity.
  - destruct c as [[] [] [] [] [] [] [] []]; reflexivity.
Qed.

Lemma match_integer_app (s rest : string) :
  ends_value rest = true ->
  Decoder.match_integer (s ++ rest) =
  option_map (fun r => (fst r, snd r ++ rest)) (Decoder.match_integer s).
Proof.
  intros Hrest. destruct s as [|c s].
  - destruct rest as [|c rest]; [reflexivity|].
    simpl in *. destruct c as [[] [] [] [] [] [] [] []]; try discriminate Hrest; reflexivity.
  - unfold Decoder.match_integer. cbn [append].
    destruct (Ascii.eqb c "0"); [reflexivity|].
    destruct (Decoder.is_digit c); [|reflexivity].
    change (String c (s ++ rest)) with (String c s ++ rest).
    rewrite (take_digits_app _ rest Hrest). reflexivity.
Qed.

Lemma scan_number_app (s rest : string) :
  ends_value rest = true ->
  Decoder.scan_number (s ++ rest) =
  option_map (fun r => (fst r, snd r ++ rest)) (Decoder.scan_number s).
Proof.
  intros Hrest. unfold Decoder.scan_number.
  rewrite (match_minus_app s rest Hrest).
  destruct (Decoder.match_minus s) as [neg s0]. cbn [fst snd].
  rewrite (match_integer_app s0 rest Hrest).
  destruct (Decoder.match_integer s0) as [[int_ds s1]|]; [|reflexivity].
  cbn [option_map fst snd].
  rewrite (match_frac_app s1 rest Hrest).
  destruct (Decoder.match_frac s1) as [frac_ds s2]. cbn [fst snd].
  rewrite (match_exp_app s2 rest Hrest).
  destruct (Decoder.match_exp s2) as [exp s3]. cbn [fst snd].
  destruct frac_ds, exp; reflexivity.
Qed.

(** A number starts with a digit or a minus sign. *)
Lemma scan_number_head (s : string) (r : pyval * string) :
  Decoder.scan_number s = Some r ->
  exists c s', s = String c s' /\ (Decoder.is_digit c || Ascii.eqb c "-") = true.
Proof.
  destruct s as [|c s']; [discriminate|].
  intros H. exists c, s'. split; [reflexivity|].
  destruct c as [[] [] [] [] [] [] [] []]; try reflexivity; discriminate H.
Qed.

Lemma all_ws_app (a b : string) : all_ws a = true -> all_ws b = true -> all_ws (a ++ b) = true.
Proof.
  induction a as [|c a IH]; simpl; [auto|].
  intros H Hb. apply andb_prop in H as [Hc Ha]. rewrite Hc. auto.
Qed.

Lemma skip_ws_starts (s rest : string) :
  starts_value s = true -> Decoder.skip_ws (s ++ rest) = s ++ rest.
Proof.
  destruct s as [|c s]; [discriminate|]. simpl.
  destruct (Decoder.is_ws c); [discriminate | reflexivity].
Qed.

Lemma starts_value_app (s rest : string) :
  starts_value s = true -> starts_value (s ++ rest) = true.
Proof. destruct s; [discriminate | auto]. Qed.

Lemma ends_value_ws_then (w0 s : string) :
  all_ws w0 = true -> ends_value s = true -> s <> "" -> ends_value (w0 ++ s) = true.
Proof.
  destruct w0 as [|c w0]; simpl; [auto|].
  intros H _ _. apply andb_prop in H as [Hc _]. now rewrite Hc.
Qed.

Lemma digit_starts (c : ascii) (s : string) :
  (Decoder.is_digit c || Ascii.eqb c "-") = true -> starts_value (String c s) = true.
Proof. destruct c as [[] [] [] [] [] [] [] []]; try discriminate; reflexivity. Qed.

(** ** Reading a scalar back *)

Lemma scan_once_number_app (fuel : nat) (s rest : string) (v : pyval) :
  Decoder.scan_number s = Some (v, "") -> ends_value rest = true ->
  Decoder.scan_once (S fuel) (s ++ rest) = Ok (v, rest).
Proof.
  intros Hs Hrest.
  destruct (scan_number_head s _ Hs) as (c & s' & -> & Hc).
  change (String c s' ++ rest) with (String c (s' ++ rest)).
  apply scan_once_number; [exact Hc|].
  change (String c (s' ++ rest)) with (String c s' ++ rest).
  rewrite (scan_number_app (String c s') rest Hrest), Hs. reflexivity.
Qed.

Lemma scan_number_intstr (n : Z) :
  Decoder.scan_number (Encoder.intstr n) = Some (PyInt n, "").
Proof.
  unfold Encoder.intstr, string_of_Z.
  destruct n as [|p|p]; [reflexivity| |];
    destruct (to_uint_string p) as (c & s & Hstr & Hd & H0 & Htake & Hval);
    simpl; rewrite Hstr.
  - rewrite scan_number_digits, Hval; auto.
  - rewrite scan_number_minus, Hval; auto.
Qed.

Lemma float_same_eq (x y : float) : float_same x y = true -> x = y.
Proof.
  destruct x as [a|a| |a m e], y as [b|b| |b m' e']; simpl; try discriminate; auto.
  - intros H. apply eqb_prop in H. now subst.
  - intros H. apply eqb_prop in H. now subst.
  - intros H. apply andb_prop in H as [H He]. apply andb_prop in H as [Hs Hm].
    apply eqb_prop in Hs. apply Pos.eqb_eq in Hm. apply Z.eqb_eq in He. now subst.
Qed.

Lemma float_reads_back_spec (x : float) :
  float_reads_back x = true ->
  Encoder.floatstr true x = Ok (float_repr x) /\
  Decoder.scan_number (float_repr x) = Some (PyFloat x, "").
Proof.
  unfold float_reads_back. intros H. split.
  - destruct x as [s|s| |s m e]; try reflexivity; [destruct s|]; discriminate H.
  - destruct (Decoder.scan_number (float_repr x)) as [[[] []]|]; try discriminate H.
    apply float_same_eq in H. now subst.
Qed.

(** ** A dict without a repeated key is the list of its items *)

Lemma dict_set_fresh (items : list (string * pyval)) (k : string) (v : pyval) :
  existsb (String.eqb k) (map fst items) = false ->
  dict_set items k v = (items ++ [(k, v)])%list.
Proof.
  induction items as [|[k' v'] items IH]; simpl; [reflexivity|].
  intros H. apply orb_false_elim in H as [Hk Hrest].
  rewrite String.eqb_sym, Hk, IH; auto.
Qed.

Lemma existsb_app_false (k : string) (a b : list string) :
  existsb (String.eqb k) a = false -> existsb (String.eqb k) b = false ->
  existsb (String.eqb k) (a ++ b) = false.
Proof. intros Ha Hb. now rewrite existsb_app, Ha, Hb. Qed.

Lemma fold_dict_set_distinct (items acc : list (string * pyval)) :
  distinct (map fst (acc ++ items)) = true ->
  fold_left (fun d kv => dict_set d (fst kv) (snd kv)) items acc = (acc ++ items)%list.
Proof.
  revert acc. induction items as [|[k v] items IH]; intros acc H; simpl.
  - now rewrite List.app_nil_r.
  - rewrite dict_set_fresh.
    + rewrite IH; rewrite <- List.app_assoc; [reflexivity | exact H].
    + clear IH. induction acc as [|[k' v'] acc IHacc]; simpl in *; [reflexivity|].
      apply andb_prop in H as [Hk' Hacc]. rewrite (IHacc Hacc), orb_false_r.
      rewrite map_app, existsb_app in Hk'. simpl in Hk'.
      apply negb_true_iff in Hk'. apply orb_false_elim in Hk' as [_ Hk'].
      apply orb_false_elim in Hk' as [Hk' _]. now rewrite String.eqb_sym.
Qed.

Lemma dict_of_distinct (items : list (string * pyval)) :
  distinct (map fst items) = true -> dict_of items = PyDict items.
Proof. intros H. unfold dict_of. now rewrite (fold_dict_set_distinct items []). Qed.

(** ** The decoder at the head of a value *)

Lemma scan_once_string (fuel : nat) (s : string) :
  Decoder.scan_once (S fuel) (String dquote s) =
  (' (str, tail) <- Decoder.scanstring s ;; Ok (PyStr str, tail)).
Proof. reflexivity. Qed.

Lemma scan_once_array (fuel : nat) (s : string) :
  Decoder.scan_once (S fuel) (String "[" s) =
  match Decoder.skip_ws s with
  | String "]" tail => Ok (PyList [], tail)
  | s' => Decoder.array_loop fuel s' []
  end.
Proof. reflexivity. Qed.

Lemma scan_once_object (fuel : nat) (s : string) :
  Decoder.scan_once (S fuel) (String "{" s) =
  match Decoder.skip_ws s with
  | String "}" tail => Ok (PyDict [], tail)
  | String c tail =>
      if Ascii.eqb c dquote then Decoder.object_loop fuel tail []
      else Raise (JSONDecodeError "Expecting property name enclosed in double quotes")
  | EmptyString =>
      Raise (JSONDecodeError "Expecting property name enclosed in double quotes")
  end.
Proof. reflexivity. Qed.

Lemma array_loop_step (fuel : nat) (s : string) (vals : list pyval) :
  Decoder.array_loop (S fuel) s vals =
  (' (value, s1) <- Decoder.scan_once fuel s ;;
   match Decoder.skip_ws s1 with
   | String "]" tail => Ok (PyList (vals ++ [value]), tail)
   | String "," s2 => Decoder.array_loop fuel (Decoder.skip_ws s2) (vals ++ [value])
   | _ => Raise (JSONDecodeError "Expecting ',' delimiter")
   end).
Proof. reflexivity. Qed.

Lemma object_loop_step (fuel : nat) (s : string) (pairs : list (string * pyval)) :
  Decoder.object_loop (S fuel) s pairs =
  (' (key, s1) <- Decoder.scanstring s ;;
   match Decoder.skip_ws s1 with
   | String ":" s2 =>
       ' (value, s3) <- Decoder.scan_once fuel (Decoder.skip_ws s2) ;;
       match Decoder.skip_ws s3 with
       | String "}" tail => Ok (dict_of (pairs ++ [(key, value)]), tail)
       | String "," s4 =>
           match Decoder.skip_ws s4 with
           | String c s5 =>
               if Ascii.eqb c dquote
               then Decoder.object_loop fuel s5 (pairs ++ [(key, value)])
               else Raise (JSONDecodeError
                             "Expecting property name enclosed in double quotes")
           | EmptyString =>
               Raise (JSONDecodeError "Expecting property name enclosed in double quotes")
           end
       | _ => Raise (JSONDecodeError "Expecting ',' delimiter")
       end
   | _ => Raise (JSONDecodeError "Expecting ':' delimiter")
   end).
Proof. reflexivity. Qed.

Lemma not_closing_array {A : Type} (s rest : string) (a : string -> A) (b : string -> A) :
  starts_value s = true ->
  match s ++ rest with
  | String "]" tail => a tail
  | s' => b s'
  end = b (s ++ rest).
Proof.
  destruct s as [|c s]; [discriminate|]. cbn [append].
  destruct c as [[] [] [] [] [] [] [] []]; try reflexivity; discriminate.
Qed.

Section RoundTrip.

(** The settings of [json.dumps]: an indentation step of spaces, when there
    is one, and whitespace [w] after the comma that separates items. *)
Variable _indent : option string.
Variable w : string.
Hypothesis indent_ws : match _indent with Some i => all_ws i = true | None => True end.
Hypothesis w_ws : all_ws w = true.

Abbreviation ni := (Encoder.newline_indent _indent).
Abbreviation enc := (Encoder.iterencode _indent ("," ++ w) ": " true).
Abbreviation sep level := (("," ++ w) ++ ni (S level)).

Lemma newline_indent_ws (level : nat) : all_ws (ni level) = true.
Proof.
  unfold Encoder.newline_indent. destruct _indent as [i|]; [|reflexivity].
  change (all_ws (str_mul i level) = true).
  induction level as [|level IH]; simpl; [reflexivity | now apply all_ws_app].
Qed.

Lemma iterencode_list_cons (x : pyval) (r : list pyval) (level : nat) :
  enc (PyList (x :: r)) level =
  (body <- Encoder.list_chunks (fun value => enc value (S level)) (sep level) (x :: r) true ;;
   Ok ("[" ++ ni (S level) ++ body ++ ni level ++ "]")).
Proof. reflexivity. Qed.

Lemma iterencode_dict_cons (kv : string * pyval) (r : list (string * pyval)) (level : nat) :
  enc (PyDict (kv :: r)) level =
  (body <- Encoder.dict_chunks ": " (fun value => enc value (S level)) (sep level)
             (kv :: r) true ;;
   Ok ("{" ++ ni (S level) ++ body ++ ni level ++ "}")).
Proof. reflexivity. Qed.

(** The text of a value starts like a value. *)
Lemma enc_starts (v : pyval) (level : nat) (text : string) :
  round_trip_safe v = true -> enc v level = Ok text -> starts_value text = true.
Proof.
  intros Hsafe Henc. destruct v as [| [] | n | x | s | s | items | items];
    simpl in Henc; try (injection Henc as <-; reflexivity).
  - injection Henc as <-.
    destruct (scan_number_head _ _ (scan_number_intstr n)) as (c & s' & -> & Hc).
    now apply digit_starts.
  - simpl in Hsafe. apply float_reads_back_spec in Hsafe as [Hstr Hnum].
    rewrite Hstr in Henc. injection Henc as <-.
    destruct (scan_number_head _ _ Hnum) as (c & s' & -> & Hc).
    now apply digit_starts.
  - discriminate Hsafe.
  - destruct items as [|x r]; [injection Henc as <-; reflexivity|].
    destruct (Encoder.list_chunks _ _ _ _); [|discriminate].
    injection Henc as <-. reflexivity.
  - destruct items as [|x r]; [injection Henc as <-; reflexivity|].
    destruct (Encoder.dict_chunks _ _ _ _ _); [|discriminate].
    injection Henc as <-. reflexivity.
Qed.


Lemma list_chunks_cons (f : pyval -> result string) (s : string)
      (x : pyval) (r : list pyval) (first : bool) :
  Encoder.list_chunks f s (x :: r) first =
  (chunk <- f x ;; more <- Encoder.list_chunks f s r false ;;
   Ok ((if first then "" else s) ++ chunk ++ more)).
Proof. reflexivity. Qed.

Lemma list_chunks_later (f : pyval -> result string) (s : string)
      (y : pyval) (r : list pyval) (more : string) :
  Encoder.list_chunks f s (y :: r) false = Ok more ->
  exists body, Encoder.list_chunks f s (y :: r) true = Ok body /\ more = s ++ body.
Proof.
  rewrite !list_chunks_cons. destruct (f y) as [chunk|]; [|discriminate].
  cbn [bind]. destruct (Encoder.list_chunks f s r false) as [more'|]; [|discriminate].
  cbn [bind]. intros [= <-]. eauto.
Qed.

Lemma list_chunks_starts (level : nat) (y : pyval) (r : list pyval) (body : string) :
  round_trip_safe y = true ->
  Encoder.list_chunks (fun value => enc value (S level)) (sep level) (y :: r) true = Ok body ->
  starts_value body = true.
Proof.
  intros Hy. rewrite list_chunks_cons.
  destruct (enc y (S level)) as [chunk|] eqn:E; [|discriminate].
  cbn [bind]. destruct (Encoder.list_chunks _ _ r false) as [more|]; [|discriminate].
  cbn [bind]. intros [= <-]. apply starts_value_app. eapply enc_starts; eassumption.
Qed.

Lemma array_loop_ok (level : nat) (items : list pyval) :
  Forall (reads_back enc) items ->
  forallb round_trip_safe items = true ->
  items <> [] ->
  forall vals body fuel rest,
    Encoder.list_chunks (fun value => enc value (S level)) (sep level) items true = Ok body ->
    (fold_right (fun x n => S (size x + n)) 0 items <= fuel)%nat ->
    Decoder.array_loop fuel (body ++ ni level ++ "]" ++ rest) vals
    = Ok (PyList (vals ++ items), rest).
Proof.
  induction items as [|x r IH]; [contradiction|].
  intros Hall Hsafe _ vals body fuel rest Hbody Hfuel.
  inversion Hall as [|? ? Hx Hr]; subst.
  simpl in Hsafe. apply andb_prop in Hsafe as [Hsx Hsr].
  rewrite list_chunks_cons in Hbody.
  destruct (enc x (S level)) as [chunk|] eqn:Ex; [|discriminate].
  cbn [bind] in Hbody.
  destruct (Encoder.list_chunks _ _ r false) as [more|] eqn:Emore; [|discriminate].
  cbn [bind] in Hbody. injection Hbody as <-.
  change ("" ++ chunk ++ more) with (chunk ++ more).
  simpl in Hfuel. destruct fuel as [|fuel]; [lia|].
  rewrite array_loop_step, append_assoc.
  destruct r as [|y r'].
  - simpl in Emore. injection Emore as <-.
    rewrite (Hx Hsx (S level) chunk _ fuel Ex); [| |lia].
    + cbn [bind]. change ("" ++ ?x) with x.
      rewrite (skip_ws_all_ws (ni level)) by apply newline_indent_ws. reflexivity.
    + apply (ends_value_ws_then (ni level));
        [apply newline_indent_ws | reflexivity | discriminate].
  - destruct (list_chunks_later _ _ _ _ _ Emore) as (body' & Hbody' & ->).
    rewrite (Hx Hsx (S level) chunk _ fuel Ex); [|reflexivity|lia].
    cbn [bind].
    change ((sep level ++ body') ++ ni level ++ "]" ++ rest)
      with (String "," (((w ++ ni (S level)) ++ body') ++ ni level ++ "]" ++ rest)).
    cbn [Decoder.skip_ws]. change (Decoder.is_ws ",") with false. cbv iota.
    rewrite !append_assoc, (skip_ws_all_ws w) by exact w_ws.
    rewrite (skip_ws_all_ws (ni (S level))) by apply newline_indent_ws.
    apply andb_prop in Hsr as Hsy. destruct Hsy as [Hsy _].
    rewrite skip_ws_starts by (eapply list_chunks_starts; eassumption).
    inversion Hr; subst.
    rewrite (IH Hr Hsr) with (body := body'); try assumption; try discriminate.
    + now rewrite <- List.app_assoc.
    + simpl in *. lia.
Qed.


Lemma dict_chunks_cons (f : pyval -> result string) (s : string)
      (k : string) (v : pyval) (r : list (string * pyval)) (first : bool) :
  Encoder.dict_chunks ": " f s ((k, v) :: r) first =
  (chunk <- f v ;; more <- Encoder.dict_chunks ": " f s r false ;;
   Ok ((if first then "" else s)
         ++ Encoder.encode_basestring_ascii k ++ ": " ++ chunk ++ more)).
Proof. reflexivity. Qed.

Lemma dict_chunks_later (f : pyval -> result string) (s : string)
      (kv : string * pyval) (r : list (string * pyval)) (more : string) :
  Encoder.dict_chunks ": " f s (kv :: r) false = Ok more ->
  exists body, Encoder.dict_chunks ": " f s (kv :: r) true = Ok body /\ more = s ++ body.
Proof.
  destruct kv as [k v]. rewrite !dict_chunks_cons.
  destruct (f v) as [chunk|]; [|discriminate].
  cbn [bind]. destruct (Encoder.dict_chunks ": " f s r false) as [more'|]; [|discriminate].
  cbn [bind]. intros [= <-]. eauto.
Qed.

Lemma object_loop_ok (level : nat) (items : list (string * pyval)) :
  Forall (fun kv => reads_back enc (snd kv)) items ->
  forallb (fun kv => round_trip_safe (snd kv)) items = true ->
  items <> [] ->
  forall pairs body fuel rest,
    Encoder.dict_chunks ": " (fun value => enc value (S level)) (sep level) items true
    = Ok body ->
    (fold_right (fun kv n => S (size (snd kv) + n)) 0 items <= fuel)%nat ->
    exists body0,
      body = String dquote body0 /\
      Decoder.object_loop fuel (body0 ++ ni level ++ "}" ++ rest) pairs
      = Ok (dict_of (pairs ++ items), rest).
Proof.
  induction items as [|[k v] r IH]; [contradiction|].
  intros Hall Hsafe _ pairs body fuel rest Hbody Hfuel.
  inversion Hall as [|? ? Hx Hr]; subst. cbn [snd] in Hx.
  simpl in Hsafe. apply andb_prop in Hsafe as [Hsx Hsr].
  rewrite dict_chunks_cons in Hbody.
  destruct (enc v (S level)) as [chunk|] eqn:Ex; [|discriminate].
  cbn [bind] in Hbody.
  destruct (Encoder.dict_chunks _ _ _ r false) as [more|] eqn:Emore; [|discriminate].
  cbn [bind] in Hbody. injection Hbody as <-.
  simpl in Hfuel. destruct fuel as [|fuel]; [lia|].
  exists ((Encoder.escape k ++ chr dquote) ++ ": " ++ chunk ++ more).
  split; [reflexivity|].
  rewrite object_loop_step.
  replace (((Encoder.escape k ++ chr dquote) ++ ": " ++ chunk ++ more)
             ++ ni level ++ "}" ++ rest)
    with (Encoder.escape k
            ++ String dquote (String ":" (String " " (chunk ++ more ++ ni level ++ "}" ++ rest))))
    by (rewrite !append_assoc; reflexivity).
  rewrite scanstring_escape. cbn [bind].
  cbn [Decoder.skip_ws]. change (Decoder.is_ws ":") with false. cbv iota.
  cbn [Decoder.skip_ws]. change (Decoder.is_ws " ") with true. cbv iota.
  rewrite skip_ws_starts by (eapply enc_starts; eassumption).
  destruct r as [|y r'].
  - simpl in Emore. injection Emore as <-.
    rewrite (Hx Hsx (S level) chunk _ fuel Ex); [| |lia].
    + cbn [bind]. change ("" ++ ?x) with x.
      rewrite (skip_ws_all_ws (ni level)) by apply newline_indent_ws. reflexivity.
    + apply (ends_value_ws_then (ni level));
        [apply newline_indent_ws | reflexivity | discriminate].
  - destruct (dict_chunks_later _ _ _ _ _ Emore) as (body' & Hbody' & ->).
    destruct (IH Hr Hsr ltac:(discriminate) (pairs ++ [(k, v)])%list body' fuel rest Hbody')
      as (body0' & -> & Hloop); [simpl in *; lia|].
    rewrite (Hx Hsx (S level) chunk _ fuel Ex); [|reflexivity|lia].
    cbn [bind].
    change ((sep level ++ String dquote body0') ++ ni level ++ "}" ++ rest)
      with (String "," (((w ++ ni (S level)) ++ String dquote body0') ++ ni level ++ "}" ++ rest)).
    cbn [Decoder.skip_ws]. change (Decoder.is_ws ",") with false. cbv iota.
    rewrite !append_assoc, (skip_ws_all_ws w) by exact w_ws.
    rewrite (skip_ws_all_ws (ni (S level))) by apply newline_indent_ws.
    change (String dquote body0' ++ ?x) with (String dquote (body0' ++ x)).
    cbn [Decoder.skip_ws]. change (Decoder.is_ws dquote) with false. cbv iota.
    change (Ascii.eqb dquote dquote) with true. cbv iota.
    rewrite Hloop. now rewrite <- List.app_assoc.
Qed.


(** The decoder reads the text of any safe value back. *)
Lemma scan_once_enc (v : pyval) : reads_back enc v.
Proof.
  induction v as [| b | n | x | s | s | items IH | items IH] using pyval_nested_ind;
    intros Hsafe level text rest fuel Henc Hrest Hfuel;
    (destruct fuel as [|fuel]; [simpl in Hfuel; lia|]).
  - injection Henc as <-. reflexivity.
  - destruct b; injection Henc as <-; reflexivity.
  - injection Henc as <-.
    apply scan_once_number_app; [apply scan_number_intstr | exact Hrest].
  - simpl in Hsafe. apply float_reads_back_spec in Hsafe as [Hstr Hnum].
    simpl in Henc. rewrite Hstr in Henc. injection Henc as <-.
    apply scan_once_number_app; assumption.
  - injection Henc as <-. unfold Encoder.encode_basestring_ascii.
    change ((chr dquote ++ Encoder.escape s ++ chr dquote) ++ rest)
      with (String dquote ((Encoder.escape s ++ chr dquote) ++ rest)).
    rewrite scan_once_string, append_assoc.
    change (chr dquote ++ rest) with (String dquote rest).
    rewrite scanstring_escape. reflexivity.
  - discriminate Hsafe.
  - destruct items as [|x r]; [injection Henc as <-; reflexivity|].
    rewrite iterencode_list_cons in Henc.
    destruct (Encoder.list_chunks _ _ _ _) as [body|] eqn:Ebody; [|discriminate].
    cbn [bind] in Henc. injection Henc as <-.
    simpl in Hsafe.
    change (Decoder.scan_once (S fuel)
              (String "[" ((ni (S level) ++ body ++ ni level ++ "]") ++ rest))
            = Ok (PyList (x :: r), rest)).
    rewrite scan_once_array, !append_assoc.
    rewrite (skip_ws_all_ws (ni (S level))) by apply newline_indent_ws.
    assert (Hstart : starts_value body = true).
    { apply andb_prop in Hsafe as Hs. destruct Hs as [Hs _].
      eapply list_chunks_starts; eassumption. }
    rewrite skip_ws_starts by exact Hstart.
    etransitivity;
      [exact (not_closing_array body _ (fun tail => Ok (PyList [], tail))
                (fun s' => Decoder.array_loop fuel s' []) Hstart)|].
    apply (array_loop_ok level (x :: r) IH Hsafe ltac:(discriminate) [] body fuel rest Ebody).
    simpl in Hfuel |- *. lia.
  - destruct items as [|kv r]; [injection Henc as <-; reflexivity|].
    rewrite iterencode_dict_cons in Henc.
    destruct (Encoder.dict_chunks _ _ _ _ _) as [body|] eqn:Ebody; [|discriminate].
    cbn [bind] in Henc. injection Henc as <-.
    cbn [round_trip_safe] in Hsafe. apply andb_prop in Hsafe as [Hkeys Hsafe].
    destruct (object_loop_ok level (kv :: r) IH Hsafe ltac:(discriminate) [] body fuel rest Ebody)
      as (body0 & -> & Hloop); [simpl in Hfuel |- *; lia|].
    change (Decoder.scan_once (S fuel)
              (String "{" ((ni (S level) ++ String dquote body0 ++ ni level ++ "}") ++ rest))
            = Ok (PyDict (kv :: r), rest)).
    rewrite scan_once_object, !append_assoc.
    rewrite (skip_ws_all_ws (ni (S level))) by apply newline_indent_ws.
    change (String dquote body0 ++ ?x) with (String dquote (body0 ++ x)).
    cbn [Decoder.skip_ws]. change (Decoder.is_ws dquote) with false. cbv iota.
    change (Ascii.eqb dquote dquote) with true. cbv iota.
    rewrite Hloop. cbn [app]. now rewrite dict_of_distinct.
Qed.


(** *** Fuel: the text is at least as long as the value is large *)

Lemma length_append (a b : string) :
  String.length (a ++ b) = (String.length a + String.length b)%nat.
Proof. induction a as [|c a IH]; simpl; [reflexivity | now rewrite IH]. Qed.

Lemma starts_value_length (s : string) :
  starts_value s = true -> (1 <= String.length s)%nat.
Proof. destruct s; [discriminate | simpl; lia]. Qed.

Lemma list_chunks_length (level : nat) (items : list pyval) :
  Forall (long_enough enc) items ->
  forallb round_trip_safe items = true ->
  forall first body,
    Encoder.list_chunks (fun value => enc value (S level)) (sep level) items first = Ok body ->
    (fold_right (fun x n => S (size x + n)) 0 items
     <= String.length body + (if first then 1 else 0))%nat.
Proof.
  induction items as [|x r IH]; intros Hall Hsafe first body Hbody; [simpl; lia|].
  inversion Hall as [|? ? Hx Hr]; subst.
  simpl in Hsafe. apply andb_prop in Hsafe as [Hsx Hsr].
  rewrite list_chunks_cons in Hbody.
  destruct (enc x (S level)) as [chunk|] eqn:Ex; [|discriminate].
  cbn [bind] in Hbody.
  destruct (Encoder.list_chunks _ _ r false) as [more|] eqn:Emore; [|discriminate].
  cbn [bind] in Hbody. injection Hbody as <-.
  specialize (IH Hr Hsr false more Emore). specialize (Hx Hsx (S level) chunk Ex).
  cbn [fold_right snd]. destruct first; rewrite !length_append;
    cbn [String.length append]; cbv iota in IH; lia.
Qed.

Lemma dict_chunks_length (level : nat) (items : list (string * pyval)) :
  Forall (fun kv => long_enough enc (snd kv)) items ->
  forallb (fun kv => round_trip_safe (snd kv)) items = true ->
  forall first body,
    Encoder.dict_chunks ": " (fun value => enc value (S level)) (sep level) items first
    = Ok body ->
    (fold_right (fun kv n => S (size (snd kv) + n)) 0 items
     <= String.length body + (if first then 1 else 0))%nat.
Proof.
  induction items as [|[k v] r IH]; intros Hall Hsafe first body Hbody; [simpl; lia|].
  inversion Hall as [|? ? Hx Hr]; subst. cbn [snd] in Hx.
  simpl in Hsafe. apply andb_prop in Hsafe as [Hsx Hsr].
  rewrite dict_chunks_cons in Hbody.
  destruct (enc v (S level)) as [chunk|] eqn:Ex; [|discriminate].
  cbn [bind] in Hbody.
  destruct (Encoder.dict_chunks _ _ _ r false) as [more|] eqn:Emore; [|discriminate].
  cbn [bind] in Hbody. injection Hbody as <-.
  specialize (IH Hr Hsr false more Emore). specialize (Hx Hsx (S level) chunk Ex).
  cbn [fold_right snd]. destruct first; rewrite !length_append;
    cbn [String.length append]; rewrite !length_append; cbn [String.length];
    rewrite ?length_append; cbv iota in IH; lia.
Qed.

Lemma enc_length (v : pyval) : long_enough enc v.
Proof.
  induction v as [| b | n | x | s | s | items IH | items IH] using pyval_nested_ind;
    intros Hsafe level text Henc;
    try (apply starts_value_length; eapply enc_starts; eassumption).
  - destruct items as [|x r]; [injection Henc as <-; simpl; lia|].
    rewrite iterencode_list_cons in Henc.
    destruct (Encoder.list_chunks _ _ _ _) as [body|] eqn:Ebody; [|discriminate].
    cbn [bind] in Henc. injection Henc as <-.
    pose proof (list_chunks_length level (x :: r) IH Hsafe true body Ebody) as H.
    cbn [size String.length]. rewrite !length_append. cbn [String.length].
    cbv iota in H. lia.
  - destruct items as [|kv r]; [injection Henc as <-; simpl; lia|].
    rewrite iterencode_dict_cons in Henc.
    destruct (Encoder.dict_chunks _ _ _ _ _) as [body|] eqn:Ebody; [|discriminate].
    cbn [bind] in Henc. injection Henc as <-.
    cbn [round_trip_safe] in Hsafe. apply andb_prop in Hsafe as [_ Hsafe].
    pose proof (dict_chunks_length level (kv :: r) IH Hsafe true body Ebody) as H.
    cbn [size String.length]. rewrite !length_append. cbn [String.length].
    cbv iota in H. lia.
Qed.

Lemma all_ws_ends (tail : string) : all_ws tail = true -> ends_value tail = true.
Proof.
  destruct tail as [|c tail]; [reflexivity|]. simpl.
  intros H. apply andb_prop in H as [Hc _]. now rewrite Hc.
Qed.

Lemma skip_ws_only (tail : string) : all_ws tail = true -> Decoder.skip_ws tail = "".
Proof.
  intros H. rewrite <- (append_nil_r tail). now rewrite skip_ws_all_ws.
Qed.

(** The decoder gives back every safe value from its text, with any
    whitespace after it. *)
Lemma decode_enc (v : pyval) (text tail : string) :
  round_trip_safe v = true -> enc v 0 = Ok text -> all_ws tail = true ->
  Decoder.decode (text ++ tail) = Ok v.
Proof.
  intros Hsafe Henc Htail. unfold Decoder.decode.
  rewrite skip_ws_starts by (eapply enc_starts; eassumption).
  rewrite (scan_once_enc v Hsafe 0%nat text tail _ Henc (all_ws_ends _ Htail)).
  - cbn [bind]. now rewrite skip_ws_only.
  - pose proof (enc_length v Hsafe 0%nat text Henc). rewrite length_append. lia.
Qed.

End RoundTrip.

Lemma all_ws_spaces (n : nat) : all_ws (str_mul " " n) = true.
Proof. induction n as [|n IH]; simpl; [reflexivity | exact IH]. Qed.

(** [json.loads(json.dumps(v, indent=...))] is [v] for every safe value,
    also with whitespace after the text. *)
Theorem loads_dumps_round_trip (indent : option nat) (v : pyval) (text tail : string) :
  round_trip_safe v = true ->
  json_dumps indent v = Ok text ->
  all_ws tail = true ->
  json_loads (text ++ tail) = Ok v.
Proof.
  intros Hsafe Hdumps Htail. unfold json_loads.
  destruct indent as [n|]; unfold json_dumps in Hdumps.
  - apply (decode_enc (Some (str_mul " " n)) "" (all_ws_spaces n) eq_refl v text tail);
      assumption.
  - apply (decode_enc None " " I eq_refl v text tail); assumption.
Qed.

Lemma safe_serializable (v : pyval) : round_trip_safe v = true -> serializable v = true.
Proof.
  induction v as [| b | n | x | s | s | items IH | items IH] using pyval_nested_ind;
    simpl; auto; intros H.
  - rewrite forallb_forall in *. rewrite Forall_forall in IH. auto.
  - apply andb_prop in H as [_ H].
    rewrite forallb_forall in *. rewrite Forall_forall in IH. auto.
Qed.

(** [json.loads(json.dumps(v, indent=...)) == v] for every safe value. *)
Corollary loads_dumps (indent : option nat) (v : pyval) :
  round_trip_safe v = true ->
  (text <- json_dumps indent v ;; json_loads text) = Ok v.
Proof.
  intros Hsafe.
  destruct (json_dumps_total indent v (safe_serializable v Hsafe)) as [text Htext].
  rewrite Htext. cbn [bind]. rewrite <- (append_nil_r text).
  now apply (loads_dumps_round_trip indent v text "").
Qed.

(** ** The encoder raises on a value with [bytes] inside *)

Section EncoderRaises.

Variable ind : option string.
Variable isep ksep : string.

Lemma list_chunks_raises (f : pyval -> result string) (sep : string) (items : list pyval) :
  Forall (fun v => serializable v = false -> f v = Raise not_serializable_error) items ->
  Forall (fun v => serializable v = true -> exists s, f v = Ok s) items ->
  forallb serializable items = false ->
  forall first, Encoder.list_chunks f sep items first = Raise not_serializable_error.
Proof.
  induction items as [|x r IH]; intros Hbad Hgood Hser first; [discriminate Hser|].
  inversion Hbad as [|? ? Hx Hr]; inversion Hgood as [|? ? Gx Gr]; subst.
  rewrite list_chunks_cons. simpl in Hser.
  destruct (serializable x) eqn:Ex.
  - destruct (Gx eq_refl) as [chunk ->]. cbn [bind].
    rewrite (IH Hr Gr Hser false). reflexivity.
  - rewrite (Hx eq_refl). reflexivity.
Qed.

Lemma dict_chunks_raises (f : pyval -> result string) (sep : string)
      (items : list (string * pyval)) :
  Forall (fun kv => serializable (snd kv) = false -> f (snd kv) = Raise not_serializable_error)
         items ->
  Forall (fun kv => serializable (snd kv) = true -> exists s, f (snd kv) = Ok s) items ->
  forallb (fun kv => serializable (snd kv)) items = false ->
  forall first, Encoder.dict_chunks ksep f sep items first = Raise not_serializable_error.
Proof.
  induction items as [|[k x] r IH]; intros Hbad Hgood Hser first; [discriminate Hser|].
  inversion Hbad as [|? ? Hx Hr]; inversion Hgood as [|? ? Gx Gr]; subst.
  cbn [snd] in *. simpl in Hser.
  change (Encoder.dict_chunks ksep f sep ((k, x) :: r) first)
    with (chunk <- f x ;; more <- Encoder.dict_chunks ksep f sep r false ;;
          Ok ((if first then "" else sep)
                ++ Encoder.encode_basestring_ascii k ++ ksep ++ chunk ++ more)).
  destruct (serializable x) eqn:Ex.
  - destruct (Gx eq_refl) as [chunk ->]. cbn [bind].
    rewrite (IH Hr Gr Hser false). reflexivity.
  - rewrite (Hx eq_refl). reflexivity.
Qed.

Lemma iterencode_raises (v : pyval) :
  serializable v = false ->
  forall level, Encoder.iterencode ind isep ksep true v level = Raise not_serializable_error.
Proof.
  induction v as [| b | n | x | s | s | items IH | items IH] using pyval_nested_ind;
    intros Hser level; try discriminate Hser.
  - reflexivity.
  - destruct items as [|v0 items0]; [discriminate Hser|].
    change (Encoder.iterencode ind isep ksep true (PyList (v0 :: items0)) level)
      with (body <- Encoder.list_chunks
                      (fun value => Encoder.iterencode ind isep ksep true value (S level))
                      (isep ++ Encoder.newline_indent ind (S level)) (v0 :: items0) true ;;
            Ok ("[" ++ Encoder.newline_indent ind (S level) ++ body
                    ++ Encoder.newline_indent ind level ++ "]")).
    rewrite list_chunks_raises; [reflexivity | | | exact Hser].
    + rewrite Forall_forall in *. intros v Hv Hs. now apply IH.
    + rewrite Forall_forall. intros v _ Hs. now apply iterencode_total.
  - destruct items as [|kv0 items0]; [discriminate Hser|].
    change (Encoder.iterencode ind isep ksep true (PyDict (kv0 :: items0)) level)
      with (body <- Encoder.dict_chunks ksep
                      (fun value => Encoder.iterencode ind isep ksep true value (S level))
                      (isep ++ Encoder.newline_indent ind (S level)) (kv0 :: items0) true ;;
            Ok ("{" ++ Encoder.newline_indent ind (S level) ++ body
                    ++ Encoder.newline_indent ind level ++ "}")).
    rewrite dict_chunks_raises; [reflexivity | | | exact Hser].
    + rewrite Forall_forall in *. intros kv Hkv Hs. now apply IH.
    + rewrite Forall_forall. intros kv _ Hs. now apply iterencode_total.
Qed.

End EncoderRaises.

Lemma json_dumps_raises (indent : option nat) (obj : pyval) :
  serializable obj = false -> json_dumps indent obj = Raise not_serializable_error.
Proof.
  intros H. destruct indent; unfold json_dumps; apply iterencode_raises; assumption.
Qed.

(** ** The characters of a rendered text *)

Lemma all_chars_app (p : ascii -> bool) (a b : string) :
  all_chars p (a ++ b) = all_chars p a && all_chars p b.
Proof.
  induction a as [|c a IH]; simpl; [reflexivity|]. now rewrite IH, andb_assoc.
Qed.

Lemma all_chars_impl (p q : ascii -> bool) (s : string) :
  (forall c, p c = true -> q c = true) -> all_chars p s = true -> all_chars q s = true.
Proof.
  intros Hpq. induction s as [|c s IH]; simpl; [reflexivity|].
  intros H. apply andb_prop in H as [Hc Hs]. now rewrite (Hpq c Hc), IH.
Qed.

Lemma all_chars_str_mul (p : ascii -> bool) (s : string) (n : nat) :
  all_chars p s = true -> all_chars p (str_mul s n) = true.
Proof.
  intros H. induction n as [|n IH]; simpl; [reflexivity|].
  now rewrite all_chars_app, H, IH.
Qed.

Lemma all_chars_str_take (p : ascii -> bool) (n : nat) (s : string) :
  all_chars p s = true -> all_chars p (str_take n s) = true.
Proof.
  revert s. induction n as [|n IH]; intros [|c s]; simpl; auto.
  intros H. apply andb_prop in H as [Hc Hs]. now rewrite Hc, IH.
Qed.

Lemma all_chars_substring (p : ascii -> bool) (n m : nat) (s : string) :
  all_chars p s = true -> all_chars p (substring n m s) = true.
Proof.
  revert n m. induction s as [|c s IH]; intros [|n] [|m]; simpl; auto;
    intros H; apply andb_prop in H as [Hc Hs]; rewrite ?Hc; simpl; auto.
Qed.

Lemma token_printable (c : ascii) : token_char c = true -> printable c = true.
Proof.
  unfold token_char. intros H. do 8 (apply andb_prop in H as [H _]). exact H.
Qed.

Lemma printable_text (c : ascii) : printable c = true -> text_char c = true.
Proof. unfold text_char. now intros ->. Qed.

Lemma escape_char_printable (c : ascii) :
  all_chars printable (Encoder.escape_char c) = true.
Proof. destruct c as [[] [] [] [] [] [] [] []]; reflexivity. Qed.

(** Between the quotes of an encoded string there is nothing but printable
    ASCII. *)
Lemma escape_printable (s : string) : all_chars printable (Encoder.escape s) = true.
Proof.
  induction s as [|c s IH]; simpl; [reflexivity|].
  now rewrite all_chars_app, escape_char_printable, IH.
Qed.

Lemma encode_string_printable (s : string) :
  all_chars printable (Encoder.encode_basestring_ascii s) = true.
Proof.
  unfold Encoder.encode_basestring_ascii.
  now rewrite !all_chars_app, escape_printable.
Qed.

Lemma uint_token (u : uint) : all_chars token_char (NilEmpty.string_of_uint u) = true.
Proof. induction u; simpl; auto. Qed.

Lemma nilzero_uint_token (u : uint) :
  all_chars token_char (NilZero.string_of_uint u) = true.
Proof. destruct u; try reflexivity; apply (uint_token (_ u)). Qed.

Lemma string_of_Z_token (n : Z) : all_chars token_char (string_of_Z n) = true.
Proof.
  unfold string_of_Z.
  destruct n as [|p|p]; [reflexivity| |]; cbn [Z.to_int NilZero.string_of_int].
  - apply nilzero_uint_token.
  - cbn [all_chars]. now rewrite nilzero_uint_token.
Qed.

Lemma string_of_Z_nonempty (n : Z) : string_of_Z n <> "".
Proof.
  intros H. pose proof (scan_number_intstr n) as Hs. unfold Encoder.intstr in Hs.
  rewrite H in Hs. discriminate Hs.
Qed.

Lemma append_nonempty_r (a b : string) : b <> "" -> a ++ b <> "".
Proof. destruct a; simpl; [auto | discriminate]. Qed.

Lemma append_nonempty_l (a b : string) : a <> "" -> a ++ b <> "".
Proof. destruct a; simpl; [congruence | discriminate]. Qed.

Lemma repr_finite_token (m : positive) (e : Z) :
  all_chars token_char (repr_finite m e) = true /\ repr_finite m e <> "".
Proof.
  unfold repr_finite.
  destruct (shortest_digits 16 m e 1) as [[d k] n].
  pose proof (string_of_Z_token d) as Hd.
  pose proof (string_of_Z_nonempty d) as Hne.
  destruct ((k <=? -4) || (16 <? k)).
  - split.
    + rewrite !all_chars_app. 
      assert (Hm : all_chars token_char
                     match string_of_Z d with
                     | "" => ""
                     | String c "" => chr c
                     | String c (String _ _ as rest) => String c ("." ++ rest)
                     end = true).
      { destruct (string_of_Z d) as [|c [|c' r]]; [reflexivity|exact Hd|].
        simpl in Hd |- *. apply andb_prop in Hd as [-> Hd]. exact Hd. }
      rewrite Hm. cbn [all_chars andb].
      assert (Hz : all_chars token_char (zfill2 (string_of_Z (Z.abs (k - 1)))) = true).
      { unfold zfill2. pose proof (string_of_Z_token (Z.abs (k - 1))) as Ha.
        destruct (string_of_Z (Z.abs (k - 1))) as [|c [|c' r]]; auto. }
      rewrite Hz. destruct (k - 1 <? 0); reflexivity.
    + apply append_nonempty_r. discriminate.
  - destruct (k <=? 0).
    + split; [|discriminate].
      rewrite !all_chars_app, Hd, all_chars_str_mul; reflexivity.
    + destruct (n <=? k).
      * split.
        -- rewrite !all_chars_app, Hd, all_chars_str_mul; reflexivity.
        -- now apply append_nonempty_l.
      * split.
        -- rewrite !all_chars_app, all_chars_str_take, all_chars_substring; auto.
        -- apply append_nonempty_r. discriminate.
Qed.

Lemma floatstr_token (x : float) (t : string) :
  Encoder.floatstr true x = Ok t -> all_chars token_char t = true /\ t <> "".
Proof.
  destruct x as [s|s| |s m e]; simpl; intros [= <-].
  - destruct s; split; [reflexivity|discriminate|reflexivity|discriminate].
  - destruct s; split; [reflexivity|discriminate|reflexivity|discriminate].
  - split; [reflexivity|discriminate].
  - destruct (repr_finite_token m e) as [Ht Hne]. split.
    + rewrite all_chars_app, Ht. destruct s; reflexivity.
    + now apply append_nonempty_r.
Qed.

Section EncoderAscii.

Variable ind : option string.
Variable isep ksep : string.
Hypothesis ind_text : match ind with Some i => all_chars text_char i = true | None => True end.
Hypothesis isep_text : all_chars text_char isep = true.
Hypothesis ksep_text : all_chars text_char ksep = true.

Abbreviation enc := (Encoder.iterencode ind isep ksep true).

Lemma newline_indent_text (level : nat) :
  all_chars text_char (Encoder.newline_indent ind level) = true.
Proof.
  unfold Encoder.newline_indent. destruct ind as [i|]; [|reflexivity].
  rewrite all_chars_app, all_chars_str_mul; [reflexivity | exact ind_text].
Qed.

Lemma token_text (t : string) : all_chars token_char t = true -> all_chars text_char t = true.
Proof.
  apply all_chars_impl. intros c H. apply printable_text. now apply token_printable.
Qed.

Lemma list_chunks_text (f : pyval -> result string) (sep : string) (items : list pyval) :
  all_chars text_char sep = true ->
  Forall (fun v => forall t, f v = Ok t -> all_chars text_char t = true) items ->
  forall first body,
    Encoder.list_chunks f sep items first = Ok body -> all_chars text_char body = true.
Proof.
  intros Hsep. induction 1 as [|x r Hx _ IH]; intros first body Hbody.
  - injection Hbody as <-. reflexivity.
  - rewrite list_chunks_cons in Hbody.
    destruct (f x) as [chunk|] eqn:Ex; [|discriminate]. cbn [bind] in Hbody.
    destruct (Encoder.list_chunks f sep r false) as [more|] eqn:Er; [|discriminate].
    cbn [bind] in Hbody. injection Hbody as <-.
    rewrite !all_chars_app, (Hx chunk eq_refl), (IH false more Er).
    destruct first; [reflexivity | now rewrite Hsep].
Qed.

Lemma dict_chunks_text (f : pyval -> result string) (sep : string)
      (items : list (string * pyval)) :
  all_chars text_char sep = true ->
  Forall (fun kv => forall t, f (snd kv) = Ok t -> all_chars text_char t = true) items ->
  forall first body,
    Encoder.dict_chunks ksep f sep items first = Ok body -> all_chars text_char body = true.
Proof.
  intros Hsep. induction 1 as [|[k x] r Hx _ IH]; intros first body Hbody.
  - injection Hbody as <-. reflexivity.
  - cbn [snd] in Hx.
    change (Encoder.dict_chunks ksep f sep ((k, x) :: r) first)
      with (chunk <- f x ;; more <- Encoder.dict_chunks ksep f sep r false ;;
            Ok ((if first then "" else sep)
                  ++ Encoder.encode_basestring_ascii k ++ ksep ++ chunk ++ more)) in Hbody.
    destruct (f x) as [chunk|] eqn:Ex; [|discriminate]. cbn [bind] in Hbody.
    destruct (Encoder.dict_chunks ksep f sep r false) as [more|] eqn:Er; [|discriminate].
    cbn [bind] in Hbody. injection Hbody as <-.
    rewrite all_chars_app. cbn [all_chars].
    rewrite !all_chars_app, (Hx chunk eq_refl), (IH false more Er), ksep_text.
    rewrite (all_chars_impl _ _ _ printable_text (escape_printable k)).
    destruct first; [reflexivity | now rewrite Hsep].
Qed.

Lemma iterencode_text (v : pyval) :
  forall level text, enc v level = Ok text -> all_chars text_char text = true.
Proof.
  induction v as [| b | n | x | s | s | items IH | items IH] using pyval_nested_ind;
    intros level text Henc.
  - injection Henc as <-. reflexivity.
  - destruct b; injection Henc as <-; reflexivity.
  - injection Henc as <-. apply token_text, string_of_Z_token.
  - apply token_text. now apply (floatstr_token x).
  - injection Henc as <-.
    exact (all_chars_impl _ _ _ printable_text (encode_string_printable s)).
  - discriminate Henc.
  - destruct items as [|v0 items0]; [injection Henc as <-; reflexivity|].
    change (enc (PyList (v0 :: items0)) level)
      with (body <- Encoder.list_chunks (fun value => enc value (S level))
                      (isep ++ Encoder.newline_indent ind (S level)) (v0 :: items0) true ;;
            Ok ("[" ++ Encoder.newline_indent ind (S level) ++ body
                    ++ Encoder.newline_indent ind level ++ "]")) in Henc.
    destruct (Encoder.list_chunks _ _ _ _) as [body|] eqn:Eb; [|discriminate].
    cbn [bind] in Henc. injection Henc as <-.
    change (all_chars text_char
              (String "[" (Encoder.newline_indent ind (S level) ++ body
                             ++ Encoder.newline_indent ind level ++ "]")) = true).
    cbn [all_chars]. rewrite !all_chars_app, !newline_indent_text.
    rewrite (list_chunks_text (fun value => enc value (S level))
               (isep ++ Encoder.newline_indent ind (S level)) (v0 :: items0))
      with (first := true) (body := body); [reflexivity | | | exact Eb].
    + now rewrite all_chars_app, isep_text, newline_indent_text.
    + rewrite Forall_forall in *. intros v Hv t Ht. eapply IH; eassumption.
  - destruct items as [|kv0 items0]; [injection Henc as <-; reflexivity|].
    change (enc (PyDict (kv0 :: items0)) level)
      with (body <- Encoder.dict_chunks ksep (fun value => enc value (S level))
                      (isep ++ Encoder.newline_indent ind (S level)) (kv0 :: items0) true ;;
            Ok ("{" ++ Encoder.newline_indent ind (S level) ++ body
                    ++ Encoder.newline_indent ind level ++ "}")) in Henc.
    destruct (Encoder.dict_chunks _ _ _ _ _) as [body|] eqn:Eb; [|discriminate].
    cbn [bind] in Henc. injection Henc as <-.
    change (all_chars text_char
              (String "{" (Encoder.newline_indent ind (S level) ++ body
                             ++ Encoder.newline_indent ind level ++ "}")) = true).
    cbn [all_chars]. rewrite !all_chars_app, !newline_indent_text.
    rewrite (dict_chunks_text (fun value => enc value (S level))
               (isep ++ Encoder.newline_indent ind (S level)) (kv0 :: items0))
      with (first := true) (body := body); [reflexivity | | | exact Eb].
    + now rewrite all_chars_app, isep_text, newline_indent_text.
    + rewrite Forall_forall in *. intros kv Hkv t Ht. eapply IH; eassumption.
Qed.

End EncoderAscii.

Lemma json_dumps_text (indent : option nat) (obj : pyval) (text : string) :
  json_dumps indent obj = Ok text -> all_chars text_char text = true.
Proof.
  destruct indent as [n|]; unfold json_dumps; intros H.
  - apply (iterencode_text (Some (str_mul " " n)) "," ": ") with (v := obj) (level := 0%nat);
      [now apply all_chars_str_mul | reflexivity | reflexivity | exact H].
  - apply (iterencode_text None ", " ": ") with (v := obj) (level := 0%nat);
      [exact I | reflexivity | reflexivity | exact H].
Qed.

(** ** Lines *)

Lemma split_on_nonempty (sep : ascii) (s : string) : split_on sep s <> [].
Proof.
  induction s as [|c s IH]; simpl; [discriminate|].
  destruct (Ascii.eqb c sep); [discriminate|].
  destruct (split_on sep s); [contradiction | discriminate].
Qed.

Lemma split_on_nolf (s : string) : nolf s = true -> split_on LF s = [s].
Proof.
  induction s as [|c s IH]; simpl; [reflexivity|].
  intros H. apply andb_prop in H as [Hc Hs].
  apply negb_true_iff in Hc. rewrite Hc, (IH Hs). reflexivity.
Qed.

Lemma split_on_app_nl (a b : string) :
  split_on LF (a ++ String LF b) = (split_on LF a ++ split_on LF b)%list.
Proof.
  induction a as [|c a IH]; [reflexivity|].
  cbn [append split_on]. rewrite IH.
  destruct (Ascii.eqb c LF); [reflexivity|].
  pose proof (split_on_nonempty LF a) as Hne.
  destruct (split_on LF a); [contradiction | reflexivity].
Qed.

Lemma last_char_app (a b : string) : b <> "" -> last_char (a ++ b) = last_char b.
Proof.
  intros Hb. induction a as [|c a IH]; [reflexivity|].
  cbn [append]. simpl. rewrite IH.
  destruct (a ++ b) eqn:E; [|reflexivity].
  destruct a; simpl in E; [contradiction | discriminate].
Qed.

Lemma nolf_app (a b : string) : nolf (a ++ b) = nolf a && nolf b.
Proof. apply all_chars_app. Qed.

Lemma printable_nolf (s : string) : all_chars printable s = true -> nolf s = true.
Proof.
  apply all_chars_impl. intros c H.
  destruct c as [[] [] [] [] [] [] [] []]; try reflexivity; discriminate H.
Qed.

Lemma token_nolf (s : string) : all_chars token_char s = true -> nolf s = true.
Proof.
  intros H. apply printable_nolf. revert H. apply all_chars_impl, token_printable.
Qed.

Lemma token_head (s : string) : all_chars token_char s = true -> s <> "" -> head_ok s = true.
Proof.
  destruct s as [|c s]; [congruence|]. simpl. intros H _.
  apply andb_prop in H as [H _].
  destruct c as [[] [] [] [] [] [] [] []]; try reflexivity; discriminate H.
Qed.

Lemma token_last (s : string) (c : ascii) :
  all_chars token_char s = true -> last_char s = Some c -> token_char c = true.
Proof.
  induction s as [|x s IH]; [discriminate|]. simpl.
  intros H. apply andb_prop in H as [Hx Hs].
  destruct s; [intros [= <-]; exact Hx | auto].
Qed.

Lemma token_not_opens (s : string) : all_chars token_char s = true -> opens s = false.
Proof.
  intros H. unfold opens. destruct (last_char s) as [c|] eqn:E; [|reflexivity].
  pose proof (token_last s c H E) as Hc.
  destruct c as [[] [] [] [] [] [] [] []]; try reflexivity; discriminate Hc.
Qed.

Lemma head_ok_app (a b : string) : head_ok a = true -> head_ok (a ++ b) = true.
Proof. destruct a; [discriminate | auto]. Qed.

Lemma head_ok_not_closes (s : string) : head_ok s = true -> closes s = false.
Proof.
  destruct s as [|c s]; [reflexivity|]. simpl.
  destruct (Ascii.eqb c "}"), (Ascii.eqb c "]"); simpl; rewrite ?andb_false_r; try discriminate.
  reflexivity.
Qed.

Lemma leading_spaces_head (s : string) : head_ok s = true -> leading_spaces s = (O, s).
Proof.
  destruct s as [|c s]; [reflexivity|]. simpl.
  destruct c as [[] [] [] [] [] [] [] []]; try reflexivity; discriminate.
Qed.

Lemma leading_spaces_pad (k : nat) (s : string) :
  leading_spaces (str_mul " " k ++ s) = (k + fst (leading_spaces s), snd (leading_spaces s))%nat.
Proof.
  induction k as [|k IH]; simpl; [now destruct (leading_spaces s)|].
  rewrite IH. reflexivity.
Qed.

Lemma str_mul_spaces (n L : nat) : str_mul (str_mul " " n) L = str_mul " " (n * L).
Proof.
  induction L as [|L IH]; simpl; [now rewrite Nat.mul_0_r|].
  rewrite IH, Nat.mul_succ_r.
  assert (Hadd : forall a b, str_mul " " a ++ str_mul " " b = str_mul " " (a + b)).
  { induction a as [|a IHa]; intros b; simpl; [reflexivity | now rewrite IHa]. }
  now rewrite Hadd, Nat.add_comm.
Qed.

(** ** Every line of an indented rendering is indented as its depth asks *)

Lemma indent_walk_app (step d : nat) (l1 l2 : list string) :
  indent_walk step d (l1 ++ l2) =
  match indent_walk step d l1 with
  | Some d' => indent_walk step d' l2
  | None => None
  end.
Proof.
  revert d. induction l1 as [|line l1 IH]; intros d; [reflexivity|].
  cbn [List.app indent_walk]. destruct (leading_spaces line) as [k body].
  destruct (_ && _); [apply IH | reflexivity].
Qed.

Lemma indentation_ok_walk (step d : nat) (lines : list string) :
  indentation_ok step d lines =
  match indent_walk step d lines with
  | Some O => true
  | _ => false
  end.
Proof.
  revert d. induction lines as [|line lines IH]; intros d.
  - simpl. now destruct d.
  - cbn [indentation_ok indent_walk]. destruct (leading_spaces line) as [k body].
    destruct (negb (body =? "")%string && _ && _); [|reflexivity].
    cbn [andb]. apply IH.
Qed.

(** Rewrite the text under the walk to [new], equal to it up to the
    association of [++]. *)
Ltac retext new :=
  match goal with
  | |- indent_walk _ _ (split_on LF ?t) = _ =>
      replace t with new
        by (unfold Encoder.encode_basestring_ascii, chr;
            repeat first [rewrite append_assoc | progress cbn [append]];
            reflexivity)
  end.

Section Indentation.

(** [indent=n]: the indentation step is [n] spaces, the item separator a
    comma, the key separator a colon and a space. *)
Variable n : nat.

Abbreviation enc := (Encoder.iterencode (Some (str_mul " " n)) "," ": " true).
Abbreviation pad L := (str_mul (str_mul " " n) L).

Lemma pad_nolf (L : nat) : nolf (pad L) = true.
Proof. apply all_chars_str_mul, all_chars_str_mul. reflexivity. Qed.

(** One line, indented for depth [L]: the walk goes one level down when the
    line ends with an opening bracket. *)
Lemma walk_line (L : nat) (body : string) :
  head_ok body = true -> nolf body = true ->
  indent_walk n L (split_on LF (pad L ++ body)) = Some (if opens body then S L else L).
Proof.
  intros Hhead Hnolf.
  rewrite split_on_nolf by (now rewrite nolf_app, pad_nolf).
  cbn [indent_walk]. rewrite str_mul_spaces, leading_spaces_pad, leading_spaces_head by exact Hhead.
  cbn [fst snd]. rewrite (head_ok_not_closes body Hhead), Nat.add_0_r, Nat.eqb_refl.
  destruct body; [discriminate Hhead | reflexivity].
Qed.

(** The line that closes a container opened at depth [L]. *)
Lemma walk_close (L : nat) (c : ascii) (post : string) :
  c = "]"%char \/ c = "}"%char -> post = "" \/ post = "," ->
  indent_walk n (S L) (split_on LF (pad L ++ String c post)) = Some L.
Proof.
  intros Hc Hpost.
  rewrite split_on_nolf
    by (rewrite nolf_app, pad_nolf; destruct Hc as [-> | ->], Hpost as [-> | ->]; reflexivity).
  cbn [indent_walk]. rewrite str_mul_spaces, leading_spaces_pad.
  destruct Hc as [-> | ->], Hpost as [-> | ->]; cbn; now rewrite Nat.add_0_r, Nat.eqb_refl.
Qed.

Lemma one_line (L : nat) (text p post : string) :
  nolf text = true -> head_ok text = true -> opens text = false ->
  before_ok p -> after_ok post ->
  indent_walk n L (split_on LF ((pad L ++ p) ++ text ++ post)) = Some L.
Proof.
  intros Hnolf Hhead Hopen [Hp Hp'] Hpost.
  rewrite append_assoc.
  assert (Hne : text <> "") by (destruct text; [discriminate Hhead | discriminate]).
  rewrite walk_line.
  - assert (Ho : opens (p ++ text ++ post) = false).
    { unfold opens. destruct Hpost as [-> | ->].
      - rewrite append_nil_r, last_char_app by exact Hne. exact Hopen.
      - rewrite (last_char_app p (text ++ ",")) by (apply append_nonempty_r; discriminate).
        rewrite (last_char_app text ",") by discriminate. reflexivity. }
    now rewrite Ho.
  - destruct Hp' as [-> | Hp'];
      [exact (head_ok_app text post Hhead) | exact (head_ok_app p _ Hp')].
  - rewrite !nolf_app, Hp, Hnolf. now destruct Hpost as [-> | ->].
Qed.

Lemma string_line (s : string) :
  nolf (Encoder.encode_basestring_ascii s) = true /\
  head_ok (Encoder.encode_basestring_ascii s) = true /\
  opens (Encoder.encode_basestring_ascii s) = false.
Proof.
  split; [apply printable_nolf, encode_string_printable|]. split; [reflexivity|].
  unfold opens, Encoder.encode_basestring_ascii.
  rewrite (last_char_app (chr dquote) (Encoder.escape s ++ chr dquote))
    by (apply append_nonempty_r; discriminate).
  rewrite (last_char_app (Encoder.escape s) (chr dquote)) by discriminate. reflexivity.
Qed.

Lemma token_line (t : string) :
  all_chars token_char t = true -> t <> "" ->
  nolf t = true /\ head_ok t = true /\ opens t = false.
Proof.
  intros Ht Hne. split; [now apply token_nolf|].
  split; [now apply token_head | now apply token_not_opens].
Qed.


Lemma newline_indent_pad (L : nat) :
  Encoder.newline_indent (Some (str_mul " " n)) L = String LF (pad L).
Proof. reflexivity. Qed.

Lemma before_nothing : before_ok "".
Proof. split; [reflexivity | now left]. Qed.

Lemma before_key (k : string) : before_ok (Encoder.encode_basestring_ascii k ++ ": ").
Proof.
  destruct (string_line k) as (Hn & Hh & _). split.
  - now rewrite nolf_app, Hn.
  - right. now apply head_ok_app.
Qed.

Lemma list_lines (L : nat) (items : list pyval) :
  Forall (indented n) items -> items <> [] ->
  forall body,
    Encoder.list_chunks (fun value => enc value (S L))
      ("," ++ Encoder.newline_indent (Some (str_mul " " n)) (S L)) items true = Ok body ->
    indent_walk n (S L) (split_on LF (pad (S L) ++ body)) = Some (S L).
Proof.
  induction items as [|x r IH]; [contradiction|].
  intros Hall _ body Hbody. inversion Hall as [|? ? Hx Hr]; subst.
  rewrite list_chunks_cons in Hbody.
  destruct (enc x (S L)) as [chunk|] eqn:Ex; [|discriminate]. cbn [bind] in Hbody.
  destruct (Encoder.list_chunks _ _ r false) as [more|] eqn:Emore; [|discriminate].
  cbn [bind] in Hbody. injection Hbody as <-.
  destruct r as [|y r'].
  - injection Emore as <-.
    pose proof (Hx (S L) chunk "" "" Ex before_nothing (or_introl eq_refl)) as H.
    rewrite (append_nil_r (pad (S L))) in H. exact H.
  - destruct (list_chunks_later _ _ _ _ _ Emore) as (body' & Hbody' & ->).
    rewrite newline_indent_pad.
    pose proof (Hx (S L) chunk "" "," Ex before_nothing (or_intror eq_refl)) as H.
    rewrite (append_nil_r (pad (S L))) in H.
    retext ((pad (S L) ++ chunk ++ ",") ++ String LF (pad (S L) ++ body')).
    rewrite split_on_app_nl, indent_walk_app, H.
    rewrite newline_indent_pad in Hbody'.
    apply (IH Hr); [discriminate | exact Hbody'].
Qed.

Lemma dict_lines (L : nat) (items : list (string * pyval)) :
  Forall (fun kv => indented n (snd kv)) items -> items <> [] ->
  forall body,
    Encoder.dict_chunks ": " (fun value => enc value (S L))
      ("," ++ Encoder.newline_indent (Some (str_mul " " n)) (S L)) items true = Ok body ->
    indent_walk n (S L) (split_on LF (pad (S L) ++ body)) = Some (S L).
Proof.
  induction items as [|[k x] r IH]; [contradiction|].
  intros Hall _ body Hbody. inversion Hall as [|? ? Hx Hr]; subst. cbn [snd] in Hx.
  rewrite dict_chunks_cons in Hbody.
  destruct (enc x (S L)) as [chunk|] eqn:Ex; [|discriminate]. cbn [bind] in Hbody.
  destruct (Encoder.dict_chunks _ _ _ r false) as [more|] eqn:Emore; [|discriminate].
  cbn [bind] in Hbody. injection Hbody as <-.
  set (key := Encoder.encode_basestring_ascii k ++ ": ").
  destruct r as [|y r'].
  - injection Emore as <-.
    pose proof (Hx (S L) chunk key "" Ex (before_key k) (or_introl eq_refl)) as H.
    unfold key in H. retext ((pad (S L) ++ Encoder.encode_basestring_ascii k ++ ": ") ++ chunk ++ "").
    exact H.
  - destruct (dict_chunks_later _ _ _ _ _ Emore) as (body' & Hbody' & ->).
    rewrite newline_indent_pad.
    pose proof (Hx (S L) chunk key "," Ex (before_key k) (or_intror eq_refl)) as H.
    unfold key in H.
    retext (((pad (S L) ++ Encoder.encode_basestring_ascii k ++ ": ") ++ chunk ++ ",")
              ++ String LF (pad (S L) ++ body')).
    rewrite split_on_app_nl, indent_walk_app, H.
    rewrite newline_indent_pad in Hbody'.
    apply (IH Hr); [discriminate | exact Hbody'].
Qed.

(** The lines of a container: the line that opens it, the lines of its
    items one level down, the line that closes it. *)
Lemma container_lines (L : nat) (o c : ascii) (body p post : string) :
  o = "["%char \/ o = "{"%char -> c = "]"%char \/ c = "}"%char ->
  before_ok p -> after_ok post ->
  indent_walk n (S L) (split_on LF (pad (S L) ++ body)) = Some (S L) ->
  indent_walk n L
    (split_on LF ((pad L ++ p)
                    ++ (chr o ++ String LF (pad (S L)) ++ body ++ String LF (pad L) ++ chr c)
                    ++ post)) = Some L.
Proof.
  intros Ho Hc [Hp Hp'] Hpost Hbody.
  retext ((pad L ++ p ++ chr o)
            ++ String LF ((pad (S L) ++ body) ++ String LF (pad L ++ String c post))).
  rewrite split_on_app_nl, indent_walk_app, walk_line.
  - assert (Hopens : opens (p ++ chr o) = true).
    { unfold opens. rewrite last_char_app by discriminate.
      destruct Ho as [-> | ->]; reflexivity. }
    rewrite Hopens, split_on_app_nl, indent_walk_app, Hbody. now apply walk_close.
  - destruct Hp' as [-> | Hp']; [destruct Ho as [-> | ->]; reflexivity|].
    now apply head_ok_app.
  - rewrite nolf_app, Hp. destruct Ho as [-> | ->]; reflexivity.
Qed.

Lemma iterencode_indented (v : pyval) : indented n v.
Proof.
  induction v as [| b | x | x | s | s | items IH | items IH] using pyval_nested_ind;
    intros L text p post Henc Hp Hpost.
  - injection Henc as <-. now apply one_line.
  - destruct b; injection Henc as <-; now apply one_line.
  - injection Henc as <-.
    destruct (token_line _ (string_of_Z_token x) (string_of_Z_nonempty x)) as (H1 & H2 & H3).
    now apply one_line.
  - destruct (floatstr_token x text Henc) as [Ht Hne].
    destruct (token_line _ Ht Hne) as (H1 & H2 & H3). now apply one_line.
  - injection Henc as <-. destruct (string_line s) as (H1 & H2 & H3). now apply one_line.
  - discriminate Henc.
  - destruct items as [|v0 items0]; [injection Henc as <-; now apply one_line|].
    change (enc (PyList (v0 :: items0)) L)
      with (body <- Encoder.list_chunks (fun value => enc value (S L))
                      ("," ++ Encoder.newline_indent (Some (str_mul " " n)) (S L))
                      (v0 :: items0) true ;;
            Ok ("[" ++ Encoder.newline_indent (Some (str_mul " " n)) (S L) ++ body
                    ++ Encoder.newline_indent (Some (str_mul " " n)) L ++ "]")) in Henc.
    destruct (Encoder.list_chunks _ _ _ _) as [body|] eqn:Eb; [|discriminate].
    cbn [bind] in Henc. injection Henc as <-.
    apply (container_lines L "[" "]" body p post); auto.
    apply (list_lines L (v0 :: items0) IH); [discriminate | exact Eb].
  - destruct items as [|kv0 items0]; [injection Henc as <-; now apply one_line|].
    change (enc (PyDict (kv0 :: items0)) L)
      with (body <- Encoder.dict_chunks ": " (fun value => enc value (S L))
                      ("," ++ Encoder.newline_indent (Some (str_mul " " n)) (S L))
                      (kv0 :: items0) true ;;
            Ok ("{" ++ Encoder.newline_indent (Some (str_mul " " n)) (S L) ++ body
                    ++ Encoder.newline_indent (Some (str_mul " " n)) L ++ "}")) in Henc.
    destruct (Encoder.dict_chunks _ _ _ _ _) as [body|] eqn:Eb; [|discriminate].
    cbn [bind] in Henc. injection Henc as <-.
    apply (container_lines L "{" "}" body p post); auto.
    apply (dict_lines L (kv0 :: items0) IH); [discriminate | exact Eb].
Qed.

End Indentation.

Lemma json_dumps_indented (n : nat) (obj : pyval) (text : string) :
  json_dumps (Some n) obj = Ok text -> indentation_ok n 0 (split_on LF text) = true.
Proof.
  intros H. rewrite indentation_ok_walk.
  pose proof (iterencode_indented n obj 0%nat text "" "" H (before_nothing) (or_introl eq_refl))
    as Hwalk.
  cbn [str_mul append] in Hwalk. rewrite append_nil_r in Hwalk. now rewrite Hwalk.
Qed.

(** ** The keys of an indented rendering are the declared keys, in order *)

Lemma keys_in_lines_app (l1 l2 : list string) :
  keys_in_lines (l1 ++ l2) = (keys_in_lines l1 ++ keys_in_lines l2)%list.
Proof.
  induction l1 as [|line l1 IH]; [reflexivity|].
  cbn [List.app keys_in_lines]. destruct (key_of_line line); now rewrite IH.
Qed.

Lemma declared_keys_list_cons (x : pyval) (r : list pyval) :
  declared_keys (PyList (x :: r)) = (declared_keys x ++ declared_keys (PyList r))%list.
Proof. reflexivity. Qed.

Lemma declared_keys_dict_cons (k : string) (x : pyval) (r : list (string * pyval)) :
  declared_keys (PyDict ((k, x) :: r))
  = (k :: declared_keys x ++ declared_keys (PyDict r))%list.
Proof. reflexivity. Qed.

(** A line that starts, after its indentation, with a key. *)
Lemma key_of_line_keyed (k pad rest : string) :
  all_chars (Ascii.eqb " ") pad = true ->
  key_of_line (pad ++ (Encoder.encode_basestring_ascii k ++ ": ") ++ rest) = Some k.
Proof.
  intros Hpad. unfold key_of_line.
  assert (Hls : snd (leading_spaces
                       (pad ++ (Encoder.encode_basestring_ascii k ++ ": ") ++ rest))
                = String dquote (Encoder.escape k ++ String dquote (String ":" (String " " rest)))).
  { induction pad as [|c pad IH].
    - unfold Encoder.encode_basestring_ascii, chr.
      repeat first [rewrite append_assoc | progress cbn [append]]. reflexivity.
    - cbn [all_chars] in Hpad. apply andb_prop in Hpad as [Hc Hpad].
      apply Ascii.eqb_eq in Hc. subst c. cbn [append leading_spaces].
      destruct (leading_spaces _) as [m b] eqn:E. cbn [snd] in *. now apply IH. }
  rewrite Hls. change (Ascii.eqb dquote dquote) with true. cbv iota.
  now rewrite scanstring_escape.
Qed.

(** A line that starts, after its indentation, with something else than a
    quote. *)
Lemma key_of_line_other (pad body : string) :
  all_chars (Ascii.eqb " ") pad = true ->
  match body with String c _ => negb (Ascii.eqb c " ") && negb (Ascii.eqb c dquote) | "" => true end
  = true ->
  key_of_line (pad ++ body) = None.
Proof.
  intros Hpad Hbody. unfold key_of_line.
  assert (Hls : snd (leading_spaces (pad ++ body)) = body).
  { induction pad as [|c pad IH].
    - cbn [append]. destruct body as [|c b]; [reflexivity|].
      destruct c as [[] [] [] [] [] [] [] []]; try reflexivity; discriminate Hbody.
    - cbn [all_chars] in Hpad. apply andb_prop in Hpad as [Hc Hpad].
      apply Ascii.eqb_eq in Hc. subst c. cbn [append leading_spaces].
      destruct (leading_spaces _) as [m b] eqn:E. cbn [snd] in *. now apply IH. }
  rewrite Hls. destruct body as [|c b]; [reflexivity|].
  apply andb_prop in Hbody as [_ Hq]. apply negb_true_iff in Hq. now rewrite Hq.
Qed.

(** A line that holds, after its indentation, a string and then at most a
    comma. *)
Lemma key_of_line_string (pad s post : string) :
  all_chars (Ascii.eqb " ") pad = true -> post = "" \/ post = "," ->
  key_of_line (pad ++ Encoder.encode_basestring_ascii s ++ post) = None.
Proof.
  intros Hpad Hpost. unfold key_of_line.
  assert (Hls : snd (leading_spaces (pad ++ Encoder.encode_basestring_ascii s ++ post))
                = String dquote (Encoder.escape s ++ String dquote post)).
  { induction pad as [|c pad IH].
    - unfold Encoder.encode_basestring_ascii, chr.
      repeat first [rewrite append_assoc | progress cbn [append]]. reflexivity.
    - cbn [all_chars] in Hpad. apply andb_prop in Hpad as [Hc Hpad].
      apply Ascii.eqb_eq in Hc. subst c. cbn [append leading_spaces].
      destruct (leading_spaces _) as [m b] eqn:E. cbn [snd] in *. now apply IH. }
  rewrite Hls. change (Ascii.eqb dquote dquote) with true. cbv iota.
  rewrite scanstring_escape. now destruct Hpost as [-> | ->].
Qed.

Ltac retext_keys new :=
  match goal with
  | |- keys_in_lines (split_on LF ?t) = _ =>
      replace t with new
        by (unfold key_prefix, Encoder.encode_basestring_ascii, chr;
            repeat first [rewrite append_assoc | progress cbn [append]];
            reflexivity)
  end.

Section Keys.

Variable n : nat.

Abbreviation enc := (Encoder.iterencode (Some (str_mul " " n)) "," ": " true).
Abbreviation pad L := (str_mul (str_mul " " n) L).

Lemma pad_spaces (L : nat) : all_chars (Ascii.eqb " ") (pad L) = true.
Proof. apply all_chars_str_mul, all_chars_str_mul. reflexivity. Qed.

Lemma key_prefix_nolf (key : option string) : nolf (key_prefix key) = true.
Proof.
  destruct key as [k|]; [|reflexivity]. unfold key_prefix.
  rewrite nolf_app. now rewrite (printable_nolf _ (encode_string_printable k)).
Qed.

Lemma plain_head_app (a b : string) : a <> "" -> plain_head a = true -> plain_head (a ++ b) = true.
Proof. destruct a; [congruence | auto]. Qed.

Lemma token_plain (t : string) : all_chars token_char t = true -> plain_head t = true.
Proof.
  destruct t as [|c t]; [reflexivity|]. cbn [all_chars plain_head].
  intros H. apply andb_prop in H as [H _].
  destruct c as [[] [] [] [] [] [] [] []]; try reflexivity; discriminate H.
Qed.

(** The keys on the one line of a value without a key inside. *)
Lemma one_line_keys (L : nat) (text : string) (key : option string) (post : string) :
  nolf text = true -> text <> "" ->
  plain_head text = true \/ (exists s, text = Encoder.encode_basestring_ascii s) ->
  after_ok post ->
  keys_in_lines (split_on LF ((pad L ++ key_prefix key) ++ text ++ post)) = key_list key.
Proof.
  intros Hnolf Hne Hshape Hpost.
  assert (Hpostn : nolf post = true) by (destruct Hpost as [-> | ->]; reflexivity).
  rewrite split_on_nolf
    by (now rewrite !nolf_app, (pad_nolf n L), key_prefix_nolf, Hnolf, Hpostn).
  cbn [keys_in_lines]. destruct key as [k|].
  - rewrite append_assoc. cbn [key_prefix].
    now rewrite (key_of_line_keyed k (pad L) (text ++ post) (pad_spaces L)).
  - cbn [key_prefix key_list]. rewrite append_nil_r.
    destruct Hshape as [Hplain | [s ->]].
    + now rewrite (key_of_line_other (pad L) (text ++ post) (pad_spaces L)
                     (plain_head_app text post Hne Hplain)).
    + now rewrite (key_of_line_string (pad L) s post (pad_spaces L) Hpost).
Qed.

Lemma list_keys (L : nat) (items : list pyval) :
  Forall (keyed n) items -> items <> [] ->
  forall body,
    Encoder.list_chunks (fun value => enc value (S L))
      ("," ++ Encoder.newline_indent (Some (str_mul " " n)) (S L)) items true = Ok body ->
    keys_in_lines (split_on LF (pad (S L) ++ body)) = declared_keys (PyList items).
Proof.
  induction items as [|x r IH]; [contradiction|].
  intros Hall _ body Hbody. inversion Hall as [|? ? Hx Hr]; subst.
  rewrite list_chunks_cons in Hbody.
  destruct (enc x (S L)) as [chunk|] eqn:Ex; [|discriminate]. cbn [bind] in Hbody.
  destruct (Encoder.list_chunks _ _ r false) as [more|] eqn:Emore; [|discriminate].
  cbn [bind] in Hbody. injection Hbody as <-.
  rewrite declared_keys_list_cons.
  destruct r as [|y r'].
  - injection Emore as <-.
    pose proof (Hx (S L) chunk None "" Ex (or_introl eq_refl)) as H.
    cbn [key_prefix key_list List.app] in H. rewrite (append_nil_r (pad (S L))) in H.
    cbn [declared_keys]. rewrite List.app_nil_r. exact H.
  - destruct (list_chunks_later _ _ _ _ _ Emore) as (body' & Hbody' & ->).
    rewrite (newline_indent_pad n).
    pose proof (Hx (S L) chunk None "," Ex (or_intror eq_refl)) as H.
    cbn [key_prefix key_list List.app] in H. rewrite (append_nil_r (pad (S L))) in H.
    retext_keys ((pad (S L) ++ chunk ++ ",") ++ String LF (pad (S L) ++ body')).
    rewrite split_on_app_nl, keys_in_lines_app, H.
    rewrite (newline_indent_pad n) in Hbody'.
    now rewrite (IH Hr ltac:(discriminate) body' Hbody').
Qed.

Lemma dict_keys (L : nat) (items : list (string * pyval)) :
  Forall (fun kv => keyed n (snd kv)) items -> items <> [] ->
  forall body,
    Encoder.dict_chunks ": " (fun value => enc value (S L))
      ("," ++ Encoder.newline_indent (Some (str_mul " " n)) (S L)) items true = Ok body ->
    keys_in_lines (split_on LF (pad (S L) ++ body)) = declared_keys (PyDict items).
Proof.
  induction items as [|[k x] r IH]; [contradiction|].
  intros Hall _ body Hbody. inversion Hall as [|? ? Hx Hr]; subst. cbn [snd] in Hx.
  rewrite dict_chunks_cons in Hbody.
  destruct (enc x (S L)) as [chunk|] eqn:Ex; [|discriminate]. cbn [bind] in Hbody.
  destruct (Encoder.dict_chunks _ _ _ r false) as [more|] eqn:Emore; [|discriminate].
  cbn [bind] in Hbody. injection Hbody as <-.
  rewrite declared_keys_dict_cons.
  destruct r as [|y r'].
  - injection Emore as <-.
    pose proof (Hx (S L) chunk (Some k) "" Ex (or_introl eq_refl)) as H.
    cbn [key_list List.app] in H.
    retext_keys ((pad (S L) ++ key_prefix (Some k)) ++ chunk ++ "").
    rewrite H. cbn [declared_keys]. now rewrite List.app_nil_r.
  - destruct (dict_chunks_later _ _ _ _ _ Emore) as (body' & Hbody' & ->).
    rewrite (newline_indent_pad n).
    pose proof (Hx (S L) chunk (Some k) "," Ex (or_intror eq_refl)) as H.
    cbn [key_list List.app] in H.
    retext_keys (((pad (S L) ++ key_prefix (Some k)) ++ chunk ++ ",")
                   ++ String LF (pad (S L) ++ body')).
    rewrite split_on_app_nl, keys_in_lines_app, H.
    rewrite (newline_indent_pad n) in Hbody'.
    now rewrite (IH Hr ltac:(discriminate) body' Hbody').
Qed.

Lemma container_keys (L : nat) (o c : ascii) (body : string)
      (key : option string) (post : string) (inner : list string) :
  o = "["%char \/ o = "{"%char -> c = "]"%char \/ c = "}"%char -> after_ok post ->
  keys_in_lines (split_on LF (pad (S L) ++ body)) = inner ->
  keys_in_lines
    (split_on LF ((pad L ++ key_prefix key)
                    ++ (chr o ++ String LF (pad (S L)) ++ body ++ String LF (pad L) ++ chr c)
                    ++ post)) = (key_list key ++ inner)%list.
Proof.
  intros Ho Hc Hpost Hbody.
  retext_keys (((pad L ++ key_prefix key) ++ chr o ++ "")
                 ++ String LF ((pad (S L) ++ body) ++ String LF (pad L ++ String c post))).
  rewrite !split_on_app_nl, !keys_in_lines_app, Hbody.
  rewrite (one_line_keys L (chr o) key "");
    [| destruct Ho as [-> | ->]; reflexivity | discriminate
     | left; destruct Ho as [-> | ->]; reflexivity | now left].
  assert (Hlast : keys_in_lines (split_on LF (pad L ++ String c post)) = []).
  { rewrite split_on_nolf
      by (rewrite nolf_app, (pad_nolf n L);
          destruct Hc as [-> | ->], Hpost as [-> | ->]; reflexivity).
    cbn [keys_in_lines]. rewrite key_of_line_other; [reflexivity | apply pad_spaces |].
    destruct Hc as [-> | ->]; reflexivity. }
  now rewrite Hlast, List.app_nil_r.
Qed.

Lemma iterencode_keyed (v : pyval) : keyed n v.
Proof.
  induction v as [| b | x | x | s | s | items IH | items IH] using pyval_nested_ind;
    intros L text key post Henc Hpost.
  - injection Henc as <-. cbn [declared_keys]. rewrite List.app_nil_r.
    apply one_line_keys; [reflexivity | discriminate | now left | exact Hpost].
  - cbn [declared_keys]. rewrite List.app_nil_r.
    destruct b; injection Henc as <-;
      (apply one_line_keys; [reflexivity | discriminate | now left | exact Hpost]).
  - injection Henc as <-. cbn [declared_keys]. rewrite List.app_nil_r.
    apply one_line_keys; [| | | exact Hpost].
    + apply token_nolf, string_of_Z_token.
    + apply string_of_Z_nonempty.
    + left. apply token_plain, string_of_Z_token.
  - destruct (floatstr_token x text Henc) as [Ht Hne].
    cbn [declared_keys]. rewrite List.app_nil_r.
    apply one_line_keys;
      [now apply token_nolf | exact Hne | left; now apply token_plain | exact Hpost].
  - injection Henc as <-. cbn [declared_keys]. rewrite List.app_nil_r.
    apply one_line_keys; [| | | exact Hpost].
    + apply printable_nolf, encode_string_printable.
    + discriminate.
    + right. now exists s.
  - discriminate Henc.
  - destruct items as [|v0 items0].
    { injection Henc as <-. cbn [declared_keys]. rewrite List.app_nil_r.
      apply one_line_keys; [reflexivity | discriminate | now left | exact Hpost]. }
    change (enc (PyList (v0 :: items0)) L)
      with (body <- Encoder.list_chunks (fun value => enc value (S L))
                      ("," ++ Encoder.newline_indent (Some (str_mul " " n)) (S L))
                      (v0 :: items0) true ;;
            Ok ("[" ++ Encoder.newline_indent (Some (str_mul " " n)) (S L) ++ body
                    ++ Encoder.newline_indent (Some (str_mul " " n)) L ++ "]")) in Henc.
    destruct (Encoder.list_chunks _ _ _ _) as [body|] eqn:Eb; [|discriminate].
    cbn [bind] in Henc. injection Henc as <-.
    apply (container_keys L "[" "]" body key post); auto.
    apply (list_keys L (v0 :: items0) IH); [discriminate | exact Eb].
  - destruct items as [|kv0 items0].
    { injection Henc as <-. cbn [declared_keys]. rewrite List.app_nil_r.
      apply one_line_keys; [reflexivity | discriminate | now left | exact Hpost]. }
    change (enc (PyDict (kv0 :: items0)) L)
      with (body <- Encoder.dict_chunks ": " (fun value => enc value (S L))
                      ("," ++ Encoder.newline_indent (Some (str_mul " " n)) (S L))
                      (kv0 :: items0) true ;;
            Ok ("{" ++ Encoder.newline_indent (Some (str_mul " " n)) (S L) ++ body
                    ++ Encoder.newline_indent (Some (str_mul " " n)) L ++ "}")) in Henc.
    destruct (Encoder.dict_chunks _ _ _ _ _) as [body|] eqn:Eb; [|discriminate].
    cbn [bind] in Henc. injection Henc as <-.
    apply (container_keys L "{" "}" body key post); auto.
    apply (dict_keys L (kv0 :: items0) IH); [discriminate | exact Eb].
Qed.

End Keys.

Lemma json_dumps_keys (n : nat) (obj : pyval) (text : string) :
  json_dumps (Some n) obj = Ok text ->
  keys_in_lines (split_on LF text) = declared_keys obj.
Proof.
  intros H.
  pose proof (iterencode_keyed n obj 0%nat text None "" H (or_introl eq_refl)) as Hk.
  cbn [str_mul append key_prefix key_list List.app] in Hk. now rewrite append_nil_r in Hk.
Qed.

(** ** Dict displays *)

Lemma dict_lookup_set_same (items : list (string * pyval)) (k : string) (v : pyval) :
  dict_lookup (dict_set items k v) k = Some v.
Proof.
  induction items as [|[k' v'] items IH]; simpl.
  - now rewrite String.eqb_refl.
  - destruct (String.eqb k' k) eqn:E; simpl; rewrite E; [reflexivity | exact IH].
Qed.

Lemma dict_lookup_set_other (items : list (string * pyval)) (k k' : string) (v : pyval) :
  k' <> k -> dict_lookup (dict_set items k v) k' = dict_lookup items k'.
Proof.
  intros Hne. induction items as [|[k0 v0] items IH]; simpl.
  - apply String.eqb_neq in Hne. now rewrite String.eqb_sym, Hne.
  - destruct (String.eqb k0 k) eqn:E; simpl.
    + apply String.eqb_eq in E. subst k0.
      apply String.eqb_neq in Hne. now rewrite String.eqb_sym, Hne.
    + now rewrite IH.
Qed.

Lemma keys_dict_set (items : list (string * pyval)) (k : string) (v : pyval) :
  map fst (dict_set items k v) =
  if existsb (String.eqb k) (map fst items) then map fst items
  else (map fst items ++ [k])%list.
Proof.
  induction items as [|[k' v'] items IH]; simpl; [reflexivity|].
  rewrite (String.eqb_sym k k').
  destruct (String.eqb k' k); simpl; [reflexivity|].
  rewrite IH. now destruct (existsb _ _).
Qed.

Lemma distinct_snoc (keys : list string) (k : string) :
  distinct keys = true -> existsb (String.eqb k) keys = false ->
  distinct (keys ++ [k]) = true.
Proof.
  induction keys as [|k' keys IH]; simpl; [reflexivity|].
  intros H Hk. apply andb_prop in H as [Hk' Hd].
  apply orb_false_elim in Hk as [Hkk' Hk].
  rewrite existsb_app. simpl. rewrite String.eqb_sym, Hkk'.
  apply negb_true_iff in Hk'. rewrite Hk'. simpl. now apply IH.
Qed.

Lemma distinct_dict_set (items : list (string * pyval)) (k : string) (v : pyval) :
  distinct (map fst items) = true -> distinct (map fst (dict_set items k v)) = true.
Proof.
  intros H. rewrite keys_dict_set.
  destruct (existsb _ _) eqn:E; [exact H | now apply distinct_snoc].
Qed.

Lemma fold_dict_set_keys (pairs acc : list (string * pyval)) :
  distinct (map fst acc) = true ->
  distinct (map fst (fold_left (fun d kv => dict_set d (fst kv) (snd kv)) pairs acc)) = true.
Proof.
  revert acc. induction pairs as [|[k v] pairs IH]; intros acc H; simpl; [exact H|].
  apply IH. now apply distinct_dict_set.
Qed.

Lemma fold_dict_set_lookup (pairs acc : list (string * pyval)) (k : string) :
  dict_lookup (fold_left (fun d kv => dict_set d (fst kv) (snd kv)) pairs acc) k =
  match dict_lookup (List.rev pairs) k with
  | Some v => Some v
  | None => dict_lookup acc k
  end.
Proof.
  revert acc. induction pairs as [|[k' v'] pairs IH]; intros acc; simpl; [reflexivity|].
  rewrite IH.
  assert (Happ : forall l, dict_lookup (l ++ [(k', v')]) k =
                           match dict_lookup l k with
                           | Some v => Some v
                           | None => if String.eqb k' k then Some v' else None
                           end).
  { induction l as [|[a b] l IHl]; simpl; [reflexivity|].
    destruct (String.eqb a k); [reflexivity | exact IHl]. }
  rewrite Happ. destruct (dict_lookup (List.rev pairs) k); [reflexivity|].
  destruct (String.eqb k' k) eqn:E.
  - apply String.eqb_eq in E. subst k'. cbn [fst snd]. apply dict_lookup_set_same.
  - cbn [fst snd]. apply dict_lookup_set_other. apply String.eqb_neq in E. congruence.
Qed.

(** ** The run of the script *)

Lemma skipn_past {A : Type} (l l' : list A) : skipn (List.length l) (l ++ l')%list = l'.
Proof. induction l as [|x l IH]; simpl; auto. Qed.

Lemma dumps_report : json_dumps (Some 2%nat) erc1155_data = Ok expected_text.
Proof. vm_compute. reflexivity. Qed.

Lemma main_writes (before : stdout_t) :
  main before = (Ok tt, List.app before [expected_text ++ nl]).
Proof. unfold main, and_then, lift, print. rewrite dumps_report. reflexivity. Qed.

Lemma run_result (before : stdout_t) : run before = ([expected_text ++ nl], 0).
Proof. unfold run. rewrite main_writes, skipn_past. reflexivity. Qed.

Lemma program_output_text : program_output = expected_text ++ nl.
Proof. unfold program_output. rewrite run_result. reflexivity. Qed.

(** ** The properties of the report and of its rendering *)

(** C1. The whole standard-output text of the program parses as JSON, and
    the value [json.loads] returns is the report literal itself: every
    field, every nested dict in its order, both floats and both elements of
    [sample_transfers]. *)
Theorem output_parses_back_to_report :
  json_loads program_output = Ok erc1155_data.
Proof.
  rewrite program_output_text.
  apply (loads_dumps_round_trip (Some 2%nat) erc1155_data expected_text nl).
  - vm_compute. reflexivity.
  - exact dumps_report.
  - reflexivity.
Qed.

(** C2. The text written to standard output is the pretty-printed report:
    line for line the expected rendering, each line indented by two spaces
    for every bracket open around it, the keys in the order the literal
    declares them, integers as decimal numerals and the two floats as
    decimal fractions, every string between double quotes, and one newline
    after the last line. *)
Theorem output_is_pretty_printed :
  exists text,
    json_dumps (Some 2%nat) erc1155_data = Ok text /\
    program_output = text ++ nl /\
    last_char text = Some "}"%char /\
    split_on LF text = expected_lines /\
    indentation_ok 2 0 (split_on LF text) = true /\
    keys_in_lines (split_on LF text) = declared_keys erc1155_data /\
    keys erc1155_data =
      ["wallet_cluster"; "erc1155_transfers"; "canonical_trades";
       "polymarket_ui_volume"; "pnl_v2_canonical_volume"; "sample_transfers"] /\
    (forall n, json_dumps (Some 2%nat) (PyInt n) = Ok (string_of_Z n)) /\
    json_dumps (Some 2%nat) (PyFloat polymarket_ui_volume) = Ok "1383851.59" /\
    json_dumps (Some 2%nat) (PyFloat pnl_v2_canonical_volume) = Ok "225572.34" /\
    (forall s, json_dumps (Some 2%nat) (PyStr s)
               = Ok (chr dquote ++ Encoder.escape s ++ chr dquote)).
Proof.
  exists expected_text.
  split; [exact dumps_report|].
  split; [exact program_output_text|].
  repeat split; try (vm_compute; reflexivity).
Qed.

(** C3. In the report, [direction_breakdown.to_eoa] plus
    [direction_breakdown.from_eoa] is [erc1155_transfers.total]:
    180 + 69 = 249. *)
Theorem directions_add_up_to_total :
  exists to_eoa from_eoa total,
    get_path erc1155_data ["erc1155_transfers"; "direction_breakdown"; "to_eoa"]
      = Ok (PyInt to_eoa) /\
    get_path erc1155_data ["erc1155_transfers"; "direction_breakdown"; "from_eoa"]
      = Ok (PyInt from_eoa) /\
    get_path erc1155_data ["erc1155_transfers"; "total"] = Ok (PyInt total) /\
    to_eoa = 180 /\ from_eoa = 69 /\ total = 249 /\
    to_eoa + from_eoa = total.
Proof.
  exists 180, 69, 249. repeat split; vm_compute; reflexivity.
Qed.

(** C4. The fifteen integer values of [monthly_breakdown] sum to 249. *)
Theorem monthly_breakdown_sums_to_total :
  List.length (values monthly_breakdown) = 15%nat /\
  sum_ints (values monthly_breakdown) = Ok 249.
Proof. split; vm_compute; reflexivity. Qed.

(** C5. Two runs of the script write the same text and end with the same
    status, whatever is on standard output when each starts; in particular
    the second of two runs in succession repeats the writes of the first. *)
Theorem two_runs_are_identical :
  (forall before1 before2 : stdout_t, run before1 = run before2) /\
  (forall before : stdout_t,
      let after1 := snd (main before) in
      let after2 := snd (main after1) in
      run after1 = run before /\
      after2 = (before ++ fst (run before) ++ fst (run after1))%list).
Proof.
  split.
  - intros before1 before2. now rewrite !run_result.
  - intros before. cbv zeta. rewrite !run_result, !main_writes. simpl.
    split; [reflexivity|]. now rewrite <- List.app_assoc.
Qed.

(** C6. Every entry of [sample_transfers] has a [direction] that is
    either ["INBOUND"] or ["OUTBOUND"]. *)
Theorem sample_directions (t : pyval) :
  In t sample_transfers ->
  exists d, getitem t "direction" = Ok (PyStr d) /\ (d = "INBOUND" \/ d = "OUTBOUND").
Proof.
  intros H. cbv in H. destruct H as [H | [H | []]]; subst t.
  - exists "OUTBOUND". split; [reflexivity | now right].
  - exists "INBOUND". split; [reflexivity | now left].
Qed.

Lemma sample_directions_witness :
  In (nth 1 sample_transfers PyNone) sample_transfers /\
  exists d, getitem (nth 1 sample_transfers PyNone) "direction" = Ok (PyStr d)
            /\ (d = "INBOUND" \/ d = "OUTBOUND").
Proof.
  assert (H : In (nth 1 sample_transfers PyNone) sample_transfers)
    by (vm_compute; right; left; reflexivity).
  split; [exact H | exact (sample_directions _ H)].
Defined.

(** C7. The first line of the output is the single character [{], and the
    output contains the text ["total": 249]. *)
Theorem first_line_and_total :
  hd_error (split_on LF program_output) = Some "{" /\
  str_contains (chr dquote ++ "total" ++ chr dquote ++ ": 249") program_output = true.
Proof. rewrite program_output_text. split; vm_compute; reflexivity. Qed.

(** C8. The script has no failure path: the report holds no value the
    encoder refuses, so [json.dumps] returns a text; the one [print] call
    is the only write to standard output, and the process then ends with
    status 0. *)
Theorem script_never_fails (before : stdout_t) :
  exists text,
    json_dumps (Some 2%nat) erc1155_data = Ok text /\
    main before = (Ok tt, List.app before [text ++ nl]) /\
    fst (run before) = [text ++ nl] /\
    List.length (fst (run before)) = 1%nat /\
    snd (run before) = 0.
Proof.
  assert (Hser : serializable erc1155_data = true) by (vm_compute; reflexivity).
  destruct (json_dumps_total (Some 2%nat) erc1155_data Hser) as [text Htext].
  assert (Hmain : main before = (Ok tt, List.app before [text ++ nl])).
  { unfold main, and_then, lift, print. rewrite Htext. reflexivity. }
  exists text. split; [exact Htext|]. split; [exact Hmain|].
  unfold run. rewrite Hmain, skipn_past. repeat split.
Qed.

(** C9. The timestamp of the first entry of [sample_transfers] is
    [time_range.latest], ["2025-10-30 20:58:09"], and the timestamp of
    every entry lies between [time_range.earliest] and [time_range.latest]
    in the lexicographic order of strings, which for these timestamps is
    the chronological order. *)
Theorem sample_timestamps_in_range (t : pyval) :
  In t sample_transfers ->
  exists earliest latest ts,
    getitem time_range "earliest" = Ok (PyStr earliest) /\
    getitem time_range "latest" = Ok (PyStr latest) /\
    latest = "2025-10-30 20:58:09" /\
    (first <- getindex (field erc1155_data ["sample_transfers"]) 0 ;;
     getitem first "timestamp") = Ok (PyStr latest) /\
    getitem t "timestamp" = Ok (PyStr ts) /\
    String.leb earliest ts = true /\ String.leb ts latest = true /\
    chronological_key earliest <= chronological_key ts <= chronological_key latest.
Proof.
  intros H. exists "2024-08-21 17:57:45", "2025-10-30 20:58:09".
  cbv in H. destruct H as [H | [H | []]]; subst t.
  - exists "2025-10-30 20:58:09". repeat split; vm_compute; congruence.
  - exists "2025-10-15 00:38:45". repeat split; vm_compute; congruence.
Qed.

Lemma sample_timestamps_in_range_witness :
  In (nth 1 sample_transfers PyNone) sample_transfers /\
  exists earliest latest ts,
    getitem time_range "earliest" = Ok (PyStr earliest) /\
    getitem time_range "latest" = Ok (PyStr latest) /\
    latest = "2025-10-30 20:58:09" /\
    (first <- getindex (field erc1155_data ["sample_transfers"]) 0 ;;
     getitem first "timestamp") = Ok (PyStr latest) /\
    getitem (nth 1 sample_transfers PyNone) "timestamp" = Ok (PyStr ts) /\
    String.leb earliest ts = true /\ String.leb ts latest = true /\
    chronological_key earliest <= chronological_key ts <= chronological_key latest.
Proof.
  assert (H : In (nth 1 sample_transfers PyNone) sample_transfers)
    by (vm_compute; right; left; reflexivity).
  split; [exact H | exact (sample_timestamps_in_range _ H)].
Defined.

(** C10. The keys of [monthly_breakdown] are the fifteen consecutive
    calendar months from ["2024-08"] to ["2025-10"], in order and without a
    gap; the months without transfers, 2025-06 to 2025-08, are present with
    count 0; and the first and the last key are the months of
    [time_range.earliest] and [time_range.latest]. *)
Theorem monthly_breakdown_months :
  keys monthly_breakdown = months_from 2024 8 15 /\
  hd_error (keys monthly_breakdown) = Some "2024-08" /\
  last (keys monthly_breakdown) "" = "2025-10" /\
  getitem monthly_breakdown "2025-06" = Ok (PyInt 0) /\
  getitem monthly_breakdown "2025-07" = Ok (PyInt 0) /\
  getitem monthly_breakdown "2025-08" = Ok (PyInt 0) /\
  (ts <- getitem time_range "earliest" ;; s <- as_str ts ;; Ok (month_of s))
    = Ok "2024-08" /\
  (ts <- getitem time_range "latest" ;; s <- as_str ts ;; Ok (month_of s))
    = Ok "2025-10".
Proof. repeat split; vm_compute; reflexivity. Qed.

(** ** Further properties of the statement of the script, for any data *)

Lemma main_is_print_json : main = print_json (Some 2%nat) erc1155_data.
Proof. reflexivity. Qed.











(** X6. With an indent, the keys that start the lines of the text of
    [json.dumps] are the keys of the data in the order they were declared,
    each dict's keys followed by the keys inside its value. *)
Theorem dumps_keys_in_declared_order (n : nat) (obj : pyval) (text : string) :
  json_dumps (Some n) obj = Ok text ->
  keys_in_lines (split_on LF text) = declared_keys obj.
Proof. apply json_dumps_keys. Qed.

Lemma dumps_keys_in_declared_order_witness :
  json_dumps (Some 0%nat) (PyDict [("z", PyDict [("y", PyStr "k: v")]); ("a", PyNone)])
  = Ok (String.concat nl
          ["{"; chr dquote ++ "z" ++ chr dquote ++ ": {";
           chr dquote ++ "y" ++ chr dquote ++ ": " ++ chr dquote ++ "k: v" ++ chr dquote;
           "},"; chr dquote ++ "a" ++ chr dquote ++ ": null"; "}"]) /\
  keys_in_lines
    (split_on LF
       (String.concat nl
          ["{"; chr dquote ++ "z" ++ chr dquote ++ ": {";
           chr dquote ++ "y" ++ chr dquote ++ ": " ++ chr dquote ++ "k: v" ++ chr dquote;
           "},"; chr dquote ++ "a" ++ chr dquote ++ ": null"; "}"]))
  = declared_keys (PyDict [("z", PyDict [("y", PyStr "k: v")]); ("a", PyNone)]).
Proof.
  split; [reflexivity|].
  apply (dumps_keys_in_declared_order 0
           (PyDict [("z", PyDict [("y", PyStr "k: v")]); ("a", PyNone)])).
  reflexivity.
Defined.

(** ** Further properties of dict displays *)

(** X7. A dict display whose keys are all different keeps its items as
    they are written, in the order they are written. *)
Theorem dict_display_keeps_order (pairs : list (string * pyval)) :
  distinct (map fst pairs) = true -> dict_of pairs = PyDict pairs.
Proof. apply dict_of_distinct. Qed.

Lemma dict_display_keeps_order_witness :
  distinct (map fst [("b", PyInt 2); ("a", PyInt 1)]) = true /\
  dict_of [("b", PyInt 2); ("a", PyInt 1)] = PyDict [("b", PyInt 2); ("a", PyInt 1)].
Proof.
  split; [reflexivity|].
  apply (dict_display_keeps_order [("b", PyInt 2); ("a", PyInt 1)]). reflexivity.
Defined.

(** X8. A dict display never holds a key twice, whatever items are written
    in it. *)
Theorem dict_display_has_no_repeated_key (pairs : list (string * pyval)) :
  distinct (keys (dict_of pairs)) = true.
Proof. unfold dict_of, keys. now apply fold_dict_set_keys. Qed.

(** X9. Subscripting a dict display with a key gives the value written
    last for that key, and raises [KeyError] for a key that is not written
    in it. *)
Theorem dict_display_last_value_wins (pairs : list (string * pyval)) (k : string) :
  getitem (dict_of pairs) k =
  match dict_lookup (List.rev pairs) k with
  | Some v => Ok v
  | None => Raise (KeyError k)
  end.
Proof.
  unfold dict_of, getitem. rewrite fold_dict_set_lookup.
  now destruct (dict_lookup (List.rev pairs) k).
Qed.
